(** * books-repo-py: EPUB extraction, text normalisation and speech orchestration

    A shallow embedding of [book_processor.py], [tts_utils.py] and
    [voice_playground.py], and the properties of the specification that
    were checked against it.

    Conventions of the embedding.
    - A Python [str] is a Rocq [string]; its characters are the code points
      0..255, classified as CPython classifies them ([str.isspace], the
      [re] classes [\s], [\d], [\w], and [str.lower]).
    - Python [int]s are [Z]; floats ([time.time()], sizes, durations) are
      rationals [Q]; audio buffers are lists of samples whose values the
      program never inspects.
    - Code that raises, prints or touches the file system runs in the
      monad [Py]: a state monad over [World] whose results are either a
      value or a raised exception.  Libraries outside the repository (the
      synthesis engine, [soundfile], [Path.stat], PyYAML) are parameters. *)

From Stdlib Require Import String Ascii List ZArith NArith QArith Lia Bool.
From Stdlib Require Import DecimalString DecimalN.
From stdpp Require Import gmap strings.
Import ListNotations.

Set Warnings "-register-all".

Local Open Scope string_scope.
Local Open Scope list_scope.

(* ===================================================================== *)
(** ** Python strings *)
(* ===================================================================== *)

Module PyStr.

Definition ord (c : ascii) : N := N_of_ascii c.

Definition in_range (lo hi : N) (c : ascii) : bool :=
  ((lo <=? ord c) && (ord c <=? hi))%N.

(** [str.isspace] on one character, which is also the class [\s]:
    TAB..CR, FS..US, SPACE, NEL and NBSP. *)
Definition isspace (c : ascii) : bool :=
  in_range 9 13 c || in_range 28 32 c || in_range 133 133 c
  || in_range 160 160 c.

(** The class [\d]: the decimal digits. *)
Definition isdecimal (c : ascii) : bool := in_range 48 57 c.

(** [str.isalpha] on one character. *)
Definition isalpha (c : ascii) : bool :=
  in_range 65 90 c || in_range 97 122 c
  || in_range 170 170 c || in_range 181 181 c || in_range 186 186 c
  || in_range 192 214 c || in_range 216 246 c || in_range 248 255 c.

(** Characters with a numeric value that are not decimal digits:
    superscript 2, 3, 1 and the fractions 1/4, 1/2, 3/4. *)
Definition isnumeric_other (c : ascii) : bool :=
  in_range 178 179 c || in_range 185 185 c || in_range 188 190 c.

Definition isalnum (c : ascii) : bool :=
  isalpha c || isdecimal c || isnumeric_other c.

(** The class [\w]: alphanumeric or underscore. *)
Definition isword (c : ascii) : bool := isalnum c || in_range 95 95 c.

Definition isupper (c : ascii) : bool :=
  in_range 65 90 c || in_range 192 214 c || in_range 216 222 c.

(** [str.lower] on one character. *)
Definition lower_char (c : ascii) : ascii :=
  if isupper c then ascii_of_N (ord c + 32) else c.

Definition chars (s : string) : list ascii := list_ascii_of_string s.
Definition str (l : list ascii) : string := string_of_list_ascii l.

(** [s.lower()] *)
Definition lower (s : string) : string := str (map lower_char (chars s)).

Fixpoint drop_while {A} (p : A -> bool) (l : list A) : list A :=
  match l with
  | [] => []
  | x :: l' => if p x then drop_while p l' else l
  end.

Definition lstrip_chars (l : list ascii) : list ascii := drop_while isspace l.
Definition rstrip_chars (l : list ascii) : list ascii :=
  rev (drop_while isspace (rev l)).

(** [s.strip()] *)
Definition strip (s : string) : string :=
  str (rstrip_chars (lstrip_chars (chars s))).

(** [s.split()]: the maximal runs of non-whitespace characters.
    [cur] is the token being read, in reverse. *)
Fixpoint split_chars (cur : list ascii) (l : list ascii) : list (list ascii) :=
  match l with
  | [] => match cur with [] => [] | _ => [rev cur] end
  | c :: l' =>
      if isspace c
      then match cur with
           | [] => split_chars [] l'
           | _ => rev cur :: split_chars [] l'
           end
      else split_chars (c :: cur) l'
  end.

Definition split (s : string) : list string := map str (split_chars [] (chars s)).

(** Truthiness of a string: [bool(s)]. *)
Definition truthy (s : string) : bool :=
  match s with EmptyString => false | _ => true end.

Fixpoint zeros (n : nat) : string :=
  match n with O => "" | S n' => String "0" (zeros n') end.

Definition zfill (width : nat) (digits : string) : string :=
  zeros (width - String.length digits) +:+ digits.

(** [str(n)] for a non-negative [n]. *)
Definition digits_of (n : N) : string := NilEmpty.string_of_uint (N.to_uint n).

(** [str(z)] *)
Definition str_of_int (z : Z) : string :=
  if (z <? 0)%Z then "-" +:+ digits_of (Z.to_N (- z)) else digits_of (Z.to_N z).

(** [format(z, "0{width}d")]: sign-aware zero padding. *)
Definition format_0d (width : nat) (z : Z) : string :=
  if (z <? 0)%Z
  then "-" +:+ zfill (width - 1) (digits_of (Z.to_N (- z)))
  else zfill width (digits_of (Z.to_N z)).

End PyStr.

(* ===================================================================== *)
(** ** The fragment of [re] the program uses *)
(* ===================================================================== *)

Module Re.
Import PyStr.

(** Character sets: literals such as [\n], the classes [\s], [\d], [\w],
    the union inside [[...]] and the complement [[^...]]. *)
Inductive cset : Type :=
| Lit (c : ascii)
| Space
| Digit
| Word
| Union (a b : cset)
| Compl (a : cset).

Fixpoint in_cset (cs : cset) (c : ascii) : bool :=
  match cs with
  | Lit d => Ascii.eqb d c
  | Space => isspace c
  | Digit => isdecimal c
  | Word => isword c
  | Union a b => in_cset a c || in_cset b c
  | Compl a => negb (in_cset a c)
  end.

(** Quantifiers: none, [*] and [+] (both greedy). *)
Inductive quant : Type := One | Star | Plus.

(** A pattern is a sequence of quantified character sets. *)
Definition regex : Type := list (cset * quant).

(** Greedy repetition with backtracking: take as many characters of
    [cs] as possible, giving one back at a time until the rest of the
    pattern, [k], matches.  The result is the length of the match. *)
Fixpoint greedy (cs : cset) (k : list ascii -> option nat) (s : list ascii)
  : option nat :=
  match s with
  | c :: s' =>
      if in_cset cs c
      then match greedy cs k s' with
           | Some n => Some (S n)
           | None => k s
           end
      else k s
  | [] => k s
  end.

(** [match_len p s]: the pattern matches at the start of [s]; the result
    is the end offset of the match ([m.end()]). *)
Fixpoint match_len (p : regex) (s : list ascii) : option nat :=
  match p with
  | [] => Some 0
  | (cs, One) :: p' =>
      match s with
      | c :: s' => if in_cset cs c then S <$> match_len p' s' else None
      | [] => None
      end
  | (cs, Star) :: p' => greedy cs (match_len p') s
  | (cs, Plus) :: p' =>
      match s with
      | c :: s' =>
          if in_cset cs c then S <$> greedy cs (match_len p') s' else None
      | [] => None
      end
  end.

(** [re.sub] on the characters: scan from the left; where the pattern
    matches, emit the replacement and resume after the match; elsewhere
    copy the character.  [skip] counts the characters of the current
    match still to be passed over.  Every pattern of the program needs at
    least one character, so the empty-match rule of [re.sub] never
    applies; an empty match is treated as no match. *)
Fixpoint sub_chars (p : regex) (repl : list ascii) (skip : nat) (s : list ascii)
  : list ascii :=
  match s with
  | [] => []
  | c :: s' =>
      match skip with
      | S k => sub_chars p repl k s'
      | O =>
          match match_len p s with
          | Some (S k) => repl ++ sub_chars p repl k s'
          | _ => c :: sub_chars p repl 0 s'
          end
      end
  end.

(** [re.sub(p, repl, s)] *)
Definition sub (p : regex) (repl : string) (s : string) : string :=
  str (sub_chars p (chars repl) 0 (chars s)).

End Re.

(* ===================================================================== *)
(** ** book_processor.py: text normalisation *)
(* ===================================================================== *)

Definition LF : ascii := "010"%char.
Definition hyphen : ascii := "-"%char.

Module BookProcessor.
Import PyStr Re.

(** [r"\s+"] *)
Definition re_whitespace : regex := [(Space, Plus)].
(** [r"\n\s*\d+\s*\n"] *)
Definition re_page_number : regex :=
  [(Lit LF, One); (Space, Star); (Digit, Plus); (Space, Star); (Lit LF, One)].
(** [r"\n\s*\n"] *)
Definition re_paragraph_break : regex :=
  [(Lit LF, One); (Space, Star); (Lit LF, One)].

Definition newline : string := String LF "".

Definition _clean_text (text : string) : string :=
  (* Remove excessive whitespace *)
  let text := sub re_whitespace " " text in
  (* Remove page numbers and headers/footers patterns *)
  let text := sub re_page_number newline text in
  (* Clean up paragraph breaks *)
  let text := sub re_paragraph_break (newline +:+ newline) text in
  strip text.

(** *** Chapter extraction *)

(** [r"[^\w\s-]"] *)
Definition re_not_slug_char : regex :=
  [(Compl (Union Word (Union Space (Lit hyphen))), One)].
(** [r"[-\s]+"] *)
Definition re_separators : regex := [(Union (Lit hyphen) Space, Plus)].

(** [ebooklib.ITEM_DOCUMENT] *)
Definition ITEM_DOCUMENT : Z := 9.

(** A content unit of the EPUB as the extractor sees it: its type tag,
    and what the markup parser exposes of its content: the plain text
    ([soup.get_text()]) and the text of the first [h1]/[h2]/[h3]/[title]
    element, if there is one ([soup.find([...])]). *)
Record Item : Type := mkItem {
  get_type : Z;
  get_text : string;
  find_heading : option string;
}.

(** The EPUB: Dublin Core metadata by field name, and the items in the
    container's order. *)
Record Book : Type := mkBook {
  get_metadata : string -> list string;
  get_items : list Item;
}.

Record Chapter : Type := mkChapter {
  number : Z;
  title : string;
  filename : string;
  content : string;
  word_count : Z;
}.

(** [book.get_metadata("DC", field)[0][0] if ... else default] *)
Definition dc_or (book : Book) (field default : string) : string :=
  match get_metadata book field with
  | v :: _ => v
  | [] => default
  end.

Definition extract_metadata (book : Book) : gmap string string :=
  <["title" := dc_or book "title" "Unknown"]>
  (<["author" := dc_or book "creator" "Unknown"]>
  (<["language" := dc_or book "language" "en"]>
  (<["publisher" := dc_or book "publisher" "Unknown"]>
  (<["description" := dc_or book "description" ""]> ∅)))).

(** The slug and the file name of a chapter, from its title and number. *)
Definition chapter_filename (chapter_num : Z) (title : string) : string :=
  let clean_title := sub re_not_slug_char "" title in
  let clean_title := sub re_separators "-" clean_title in
  format_0d 2 chapter_num +:+ "-" +:+ lower clean_title.

(** One iteration of the loop over [book.get_items()]; the state is the
    list [chapters] and the counter [chapter_num]. *)
Definition extract_item (st : list Chapter * Z) (item : Item)
  : list Chapter * Z :=
  let '(chapters, chapter_num) := st in
  if (get_type item =? ITEM_DOCUMENT)%Z then
    let text := get_text item in
    if negb (truthy (strip text)) then st (* continue *)
    else
      let title :=
        match find_heading item with
        | Some heading => strip heading
        | None => "Chapter " +:+ str_of_int chapter_num
        end in
      (chapters ++ [ {| number := chapter_num;
                        title := title;
                        filename := chapter_filename chapter_num title;
                        content := _clean_text text;
                        word_count := Z.of_nat (length (split text)) |} ],
       (chapter_num + 1)%Z)
  else st.

Definition extract_chapters (items : list Item) : list Chapter :=
  fst (fold_left extract_item items ([], 1%Z)).

Definition extract_epub_content (book : Book)
  : gmap string string * list Chapter :=
  (extract_metadata book, extract_chapters (get_items book)).

End BookProcessor.

(* ===================================================================== *)
(** ** Effects: exceptions, the console, the clock and the file system *)
(* ===================================================================== *)

Module Effects.
Import PyStr.

(** A [pathlib.Path]: its components.  [[]] is the working directory. *)
Definition path : Type := list string.
Definition joinpath (p : path) (name : string) : path := p ++ [name].
Definition path_parent (p : path) : path := List.removelast p.

(** An audio buffer: its samples, in order. *)
Definition audio : Type := list Z.

Inductive File : Type :=
| Dir
| Text (s : string)
| Wav (data : audio) (samplerate : Z).

(** Exceptions deriving from [Exception]; [typer.Exit] is one of them. *)
Inductive exn : Type :=
| Error (name : string)
| Exit (code : Z).

(** What the program prints, call site by call site (markup dropped). *)
Inductive message : Type :=
| TtsInitializing (lang_code : string)
| TtsInitialized
| TtsInitFailed (e : exn)
| GeneratingSpeech (voice : string)
| SegmentProgress (i n : Z) (gs ps : string)
| SavedSegment (filename : path)
| CombinedSaved (filename : path)
| CombinedDuration (duration_mins : Q) (n : Z)
| TextFileNotFound (text_file : path)
| ErrorReadingFile (e : exn)
| TextFileEmpty
| InvalidVoices (invalid : list string)
| AvailableVoices (voices : list string)
| PlaygroundBanner (text_file : path) (len : Z) (voices : list string)
    (preview : string)
| OutputDirectory (session_dir : path)
| ProcessingVoice (voice : string)
| VoiceGenerated (name : string) (size_mb duration_min : Q)
| VoiceFailed
| VoiceError (e : exn)
| BookDirNotFound (book_path : path)
| TocNotFound
| BookPanel (title author : string)
| ChapterTable (rows : list (string * string * string * option bool))
| InvalidChapters (invalid : list Z)
| GeneratingAudio (n : Z) (voice : string)
| ProcessingChapter (chapter_num : Z) (title : string)
| ChapterGenerated (audio_file : path)
| ChapterFailed (chapter_num : Z).

Record World : Type := mkWorld {
  fs : gmap path File;
  console : list message;
  clock : Q;
}.

Inductive result (A : Type) : Type :=
| Ok (a : A)
| Raise (e : exn).
Arguments Ok {A} a.
Arguments Raise {A} e.

(** A computation: it changes the world and returns or raises.  What it
    did before raising stays done. *)
Definition Py (A : Type) : Type := World -> World * result A.

Definition ret {A} (a : A) : Py A := fun w => (w, Ok a).
Definition raise {A} (e : exn) : Py A := fun w => (w, Raise e).
Definition bind {A B} (m : Py A) (k : A -> Py B) : Py B :=
  fun w =>
    match m w with
    | (w', Ok a) => k a w'
    | (w', Raise e) => (w', Raise e)
    end.
(** [try: body / except Exception as e: handler] *)
Definition try_except {A} (body : Py A) (handler : exn -> Py A) : Py A :=
  fun w =>
    match body w with
    | (w', Ok a) => (w', Ok a)
    | (w', Raise e) => handler e w'
    end.
Definition lift {A} (r : result A) : Py A := fun w => (w, r).

Declare Scope py_scope.
Delimit Scope py_scope with py.
Notation "x <- m ;; k" := (bind m (fun x => k))
  (at level 100, m at next level, right associativity) : py_scope.
Notation "m ;; k" := (bind m (fun _ => k))
  (at level 100, right associativity) : py_scope.

Local Open Scope py_scope.

(** [for x in l: body], threading the local variables [s] the body
    updates. *)
Fixpoint for_each {A S} (l : list A) (body : S -> A -> Py S) (s : S) : Py S :=
  match l with
  | [] => ret s
  | x :: l' => s' <- body s x ;; for_each l' body s'
  end.

(** [enumerate(l)] *)
Definition enumerate {A} (l : list A) : list (Z * A) :=
  combine (map Z.of_nat (seq 0 (length l))) l.

(** What the libraries outside the program can observe of the world:
    the files and the time.  The console is write-only. *)
Definition Outside : Type := gmap path File * Q.
Definition outside (w : World) : Outside := (fs w, clock w).

(** [console.print] *)
Definition print (m : message) : Py unit :=
  fun w => (mkWorld (fs w) (console w ++ [m]) (clock w), Ok tt).


Definition elapse (dt : Q) (w : World) : World :=
  mkWorld (fs w) (console w) (clock w + dt).

Definition is_dir (w : World) (p : path) : bool :=
  match p with
  | [] => true
  | _ => match fs w !! p with Some Dir => true | _ => false end
  end.

(** [p.exists()] *)
Definition exists_ (p : path) : Py bool :=
  fun w => (w, Ok (is_dir w p || bool_decide (is_Some (fs w !! p)))).

Definition put_file (p : path) (f : File) : Py unit :=
  fun w => (mkWorld (<[p := f]> (fs w)) (console w) (clock w), Ok tt).

(** [p.mkdir(exist_ok=True)] *)
Definition mkdir_exist_ok (p : path) : Py unit :=
  fun w =>
    if is_dir w p then (w, Ok tt)
    else match fs w !! p with
         | Some _ => (w, Raise (Error "FileExistsError"))
         | None =>
             if is_dir w (path_parent p) then put_file p Dir w
             else (w, Raise (Error "FileNotFoundError"))
         end.

(** [with open(p, "w") as f: f.write(s)]; the write is taken to
    succeed. *)
Definition write_text (p : path) (s : string) : Py unit := put_file p (Text s).

(** [with open(p) as f: f.read()] *)
Definition read_text (p : path) : Py string :=
  fun w =>
    match fs w !! p with
    | Some (Text s) => (w, Ok s)
    | Some Dir => (w, Raise (Error "IsADirectoryError"))
    | Some (Wav _ _) => (w, Raise (Error "UnicodeDecodeError"))
    | None => (w, Raise (Error "FileNotFoundError"))
    end.

(** [sf.write(str(p), data, samplerate)]; the write is taken to
    succeed. *)
Definition sf_write (p : path) (data : audio) (samplerate : Z) : Py unit :=
  put_file p (Wav data samplerate).


End Effects.

Import PyStr Re BookProcessor Effects.

(* ===================================================================== *)
(** ** tts_utils.py *)
(* ===================================================================== *)

Module TtsUtils.
Local Open Scope py_scope.

(** One element of the engine's stream: [(gs, ps, audio)]. *)
Record Segment : Type := mkSegment {
  gs : string;
  ps : string;
  seg_audio : audio;
}.

(** A synthesis call consumed to its end: the segments it emitted, the
    error it raised after them (if any), and the time it took. *)
Record Emission : Type := mkEmission {
  emitted : list Segment;
  failure : option exn;
  took : Q;
}.

(** The libraries around the program.  Each may depend on the files and
    the time at which it is called. *)
Class Externals : Type := {
  (** [KPipeline(lang_code=...)]: the error raised, if any *)
  KPipeline : Outside -> string -> option exn;
  (** [pipeline(text, voice=voice)], iterated to exhaustion *)
  pipeline : Outside -> string -> string -> Emission;
  (** [p.stat().st_size] *)
  stat_st_size : Outside -> path -> result Z;
  (** [sf.read(p)]: [(data, samplerate)] *)
  sf_read : Outside -> path -> result (audio * Z);
}.

Section WithExternals.
Context {ext : Externals}.

Record TTSManager : Type := mkTTSManager {
  lang_code : string;
  output_dir : path;
}.

Definition create_audio_directory (name : path) : Py path :=
  mkdir_exist_ok name ;;
  ret name.

(** [TTSManager.__init__] *)
Definition TTSManager_init (lang_code : string) (output_dir : path)
  : Py TTSManager :=
  audio_dir <- create_audio_directory output_dir ;;
  print (TtsInitializing lang_code) ;;
  try_except
    (fun w => match KPipeline (outside w) lang_code with
              | None => print TtsInitialized w
              | Some e => (w, Raise e)
              end)
    (fun e => print (TtsInitFailed e) ;; raise e) ;;
  ret (mkTTSManager lang_code audio_dir).

(** [list(generator)]: runs the engine; an error raised mid-stream
    discards the segments emitted before it. *)
Definition list_generator (text voice : string) : Py (list Segment) :=
  fun w =>
    let em := pipeline (outside w) text voice in
    (elapse (took em) w,
     match failure em with
     | Some e => Raise e
     | None => Ok (emitted em)
     end).

Definition segment_filename (self : TTSManager) (filename_prefix : string)
    (i : Z) : path :=
  joinpath (output_dir self)
    (filename_prefix +:+ "_" +:+ format_0d 3 i +:+ ".wav").

Definition combined_filename (self : TTSManager) (filename_prefix : string)
  : path :=
  joinpath (output_dir self) (filename_prefix +:+ ".wav").

(** [len(combined_audio) / 24000 / 60] *)
Definition duration_mins (combined_audio : audio) : Q :=
  (inject_Z (Z.of_nat (length combined_audio)) / 24000 / 60)%Q.

Definition generate_speech (self : TTSManager) (text voice : string)
    (filename_prefix : string) (save_files combine_segments : bool)
  : Py (list path) :=
  print (GeneratingSpeech voice) ;;
  segments <- list_generator text voice ;;
  st <- for_each (enumerate segments)
    (fun (st : list path * list audio) (it : Z * Segment) =>
       let '(audio_files, all_audio_segments) := st in
       let '(i, seg) := it in
       print (SegmentProgress (i + 1) (Z.of_nat (length segments))
                (gs seg) (ps seg)) ;;
       let all_audio_segments := all_audio_segments ++ [seg_audio seg] in
       if save_files && negb combine_segments then
         let filename := segment_filename self filename_prefix i in
         sf_write filename (seg_audio seg) 24000 ;;
         print (SavedSegment filename) ;;
         ret (audio_files ++ [filename], all_audio_segments)
       else ret (audio_files, all_audio_segments))
    ([], []) ;;
  let '(audio_files, all_audio_segments) := st in
  (* Combine all segments into one file if requested *)
  if save_files && combine_segments
     && match all_audio_segments with [] => false | _ => true end
  then
    let combined_audio := concat all_audio_segments in
    let combined_filename := combined_filename self filename_prefix in
    sf_write combined_filename combined_audio 24000 ;;
    let audio_files := audio_files ++ [combined_filename] in
    print (CombinedSaved combined_filename) ;;
    print (CombinedDuration (duration_mins combined_audio)
             (Z.of_nat (length segments))) ;;
    ret audio_files
  else ret audio_files.

End WithExternals.
End TtsUtils.

Import TtsUtils.

(* ===================================================================== *)
(** ** voice_playground.py *)
(* ===================================================================== *)

Module VoicePlayground.
Local Open Scope py_scope.






Section WithExternals.
Context {ext : Externals}.






End WithExternals.
End VoicePlayground.

Import VoicePlayground.

(* ===================================================================== *)
(** ** book_processor.py: persistence and audio generation *)
(* ===================================================================== *)

Module BookStore.
Local Open Scope py_scope.

(** The Python values written to and read from the YAML files. *)
Inductive pyval : Type :=
| PStr (s : string)
| PInt (z : Z)
| PList (l : list pyval)
| PDict (d : gmap string pyval).

(** PyYAML: [yaml.dump(v)] and [yaml.safe_load(text)]. *)
Class Yaml : Type := {
  dump : pyval -> string;
  safe_load : string -> result pyval;
}.

(** A chapter as the table of contents keeps it. *)
Record Summary : Type := mkSummary {
  s_number : Z;
  s_title : string;
  s_filename : string;
  s_word_count : Z;
}.

Definition summary (ch : Chapter) : Summary :=
  {| s_number := number ch; s_title := title ch;
     s_filename := filename ch; s_word_count := word_count ch |}.

(** The dict comprehension of [save_metadata]. *)
Definition toc_entry (ch : Chapter) : pyval :=
  PDict (<["number" := PInt (number ch)]>
        (<["title" := PStr (title ch)]>
        (<["filename" := PStr (filename ch)]>
        (<["word_count" := PInt (word_count ch)]> ∅)))).

(** [d[key]] *)
Definition getitem (d : pyval) (key : string) : Py pyval :=
  match d with
  | PDict m => match m !! key with
               | Some v => ret v
               | None => raise (Error "KeyError")
               end
  | _ => raise (Error "TypeError")
  end.

Definition as_int (v : pyval) : Py Z :=
  match v with PInt z => ret z | _ => raise (Error "TypeError") end.
Definition as_str (v : pyval) : Py string :=
  match v with PStr s => ret s | _ => raise (Error "TypeError") end.
Definition as_list (v : pyval) : Py (list pyval) :=
  match v with PList l => ret l | _ => raise (Error "TypeError") end.

(** The four fields the readers take from an entry of [toc["chapters"]],
    at the types [save_metadata] writes them. *)
Definition read_entry (chapter : pyval) : Py Summary :=
  n <- (v <- getitem chapter "number" ;; as_int v) ;;
  t <- (v <- getitem chapter "title" ;; as_str v) ;;
  f <- (v <- getitem chapter "filename" ;; as_str v) ;;
  wc <- (v <- getitem chapter "word_count" ;; as_int v) ;;
  ret (mkSummary n t f wc).

(** [toc["chapters"]], entry by entry. *)
Definition toc_chapters (toc : pyval) : Py (list Summary) :=
  chapters <- (v <- getitem toc "chapters" ;; as_list v) ;;
  for_each chapters
    (fun acc chapter => e <- read_entry chapter ;; ret (acc ++ [e])) [].

Section WithYaml.
Context {yaml : Yaml}.

Definition save_metadata (book_dir : path) (metadata : gmap string string)
    (chapters : list Chapter) : Py unit :=
  (* Save metadata.yml *)
  let metadata_path := joinpath book_dir "metadata.yml" in
  write_text metadata_path (dump (PDict (PStr <$> metadata))) ;;
  (* Save toc.yml (table of contents) *)
  let toc := PDict {[ "chapters" := PList (map toc_entry chapters) ]} in
  let toc_path := joinpath book_dir "toc.yml" in
  write_text toc_path (dump toc).

Definition save_chapters (chapters_dir : path) (chapters : list Chapter)
  : Py unit :=
  for_each chapters
    (fun _ chapter =>
       let chapter_path := joinpath chapters_dir (filename chapter +:+ ".md") in
       write_text chapter_path
         ("# " +:+ title chapter +:+ newline +:+ newline +:+ content chapter))
    tt.

(** [with open(p) as f: yaml.safe_load(f)] *)
Definition load_yaml (p : path) : Py pyval :=
  s <- read_text p ;;
  lift (safe_load s).

(** [list_chapters]; the result is the loaded [(metadata, toc)] the
    panel and the table are rendered from. *)
Definition list_chapters (book_path : path) (show_audio : bool)
  : Py (pyval * pyval) :=
  let book_dir := book_path in
  found <- exists_ book_dir ;;
  if negb found then
    print (BookDirNotFound book_path) ;; raise (Exit 1)
  else
  (* Load table of contents *)
  let toc_path := joinpath book_dir "toc.yml" in
  found <- exists_ toc_path ;;
  if negb found then print TocNotFound ;; raise (Exit 1) else
  toc <- load_yaml toc_path ;;
  (* Load metadata *)
  let metadata_path := joinpath book_dir "metadata.yml" in
  metadata <- load_yaml metadata_path ;;
  t <- (v <- getitem metadata "title" ;; as_str v) ;;
  a <- (v <- getitem metadata "author" ;; as_str v) ;;
  print (BookPanel t a) ;;
  let audio_dir :=
    joinpath (joinpath (joinpath book_dir "audio") "kokoro") "chapters" in
  chapters <- toc_chapters toc ;;
  rows <- for_each chapters
    (fun rows chapter =>
       audio_status <-
         (if show_audio then
            found <- exists_ (joinpath audio_dir (s_filename chapter +:+ ".wav")) ;;
            ret (Some found)
          else ret None) ;;
       ret (rows ++ [(str_of_int (s_number chapter),
                      substring 0 60 (s_title chapter),
                      str_of_int (s_word_count chapter),
                      audio_status)]))
    [] ;;
  print (ChapterTable rows) ;;
  ret (metadata, toc).

Context {ext : Externals}.

(** The body of the loop over the requested chapter numbers. *)
Definition generate_chapter (book_dir : path) (tts_manager : TTSManager)
    (chapters_dict : gmap Z Summary) (voice : string) (combine : bool)
    (_ : unit) (chapter_num : Z) : Py unit :=
  chapter <- match chapters_dict !! chapter_num with
             | Some ch => ret ch
             | None => raise (Error "KeyError")
             end ;;
  (* Read chapter content *)
  let chapter_file :=
    joinpath (joinpath (joinpath book_dir "content") "chapters")
             (s_filename chapter +:+ ".md") in
  content <- read_text chapter_file ;;
  print (ProcessingChapter chapter_num (s_title chapter)) ;;
  (* Generate audio *)
  audio_files <- generate_speech tts_manager content voice
                   (s_filename chapter) true combine ;;
  match audio_files with
  | audio_file :: _ => print (ChapterGenerated audio_file)
  | [] => print (ChapterFailed chapter_num)
  end.

(** Process each chapter *)
Definition generate_chapters (book_dir : path) (tts_manager : TTSManager)
    (chapters_dict : gmap Z Summary) (voice : string) (combine : bool)
    (chapters : list Z) : Py unit :=
  for_each chapters
    (generate_chapter book_dir tts_manager chapters_dict voice combine) tt.

Definition generate_audio (book_path : path) (chapters : list Z)
    (voice model : string) (combine : bool) : Py unit :=
  let book_dir := book_path in
  found <- exists_ book_dir ;;
  if negb found then
    print (BookDirNotFound book_path) ;; raise (Exit 1)
  else
  (* Load table of contents *)
  toc <- load_yaml (joinpath book_dir "toc.yml") ;;
  entries <- toc_chapters toc ;;
  let chapters_dict : gmap Z Summary :=
    fold_left (fun d ch => <[s_number ch := ch]> d) entries ∅ in
  (* Validate chapter numbers *)
  let invalid_chapters :=
    filter (fun ch => chapters_dict !! ch = None) chapters in
  match invalid_chapters with
  | _ :: _ => print (InvalidChapters invalid_chapters) ;; raise (Exit 1)
  | [] =>
      (* Initialize TTS *)
      tts_manager <- TTSManager_init "a"
        (joinpath (joinpath (joinpath book_dir "audio") model) "chapters") ;;
      print (GeneratingAudio (Z.of_nat (length chapters)) voice) ;;
      generate_chapters book_dir tts_manager chapters_dict voice combine
        chapters
  end.

End WithYaml.
End BookStore.

Import BookStore.

(* ===================================================================== *)
(** ** The specification's side *)
(* ===================================================================== *)

(** Definitions that follow the words of the specification, to be
    compared with the code. *)
Module Spec.

(** The normaliser as the specification describes it once the
    page-number step is deleted: whitespace collapse, paragraph-break
    cleanup, trim. *)
Definition clean_text_without_page_numbers (text : string) : string :=
  let text := sub re_whitespace " " text in
  let text := sub re_paragraph_break (newline +:+ newline) text in
  strip text.

(** The specification's file-name pattern, [^\d{2}-[a-z0-9-]*$]: two
    digits, a hyphen, then lowercase ASCII letters, digits and hyphens. *)
Definition spec_slug_char (c : ascii) : bool :=
  in_range 97 122 c || in_range 48 57 c || Ascii.eqb c hyphen.

Definition filename_matches (s : string) : bool :=
  match chars s with
  | d1 :: d2 :: h :: slug =>
      isdecimal d1 && isdecimal d2 && Ascii.eqb h hyphen
      && forallb spec_slug_char slug
  | _ => false
  end.

(** A unit has extractable text when some character of its text is not
    whitespace. *)
Definition has_text (item : Item) : bool :=
  existsb (fun c => negb (isspace c)) (chars (get_text item)).

(** The units that count: documents with extractable text. *)
Definition is_chapter_unit (item : Item) : bool :=
  (get_type item =? ITEM_DOCUMENT)%Z && has_text item.

(** The files a call of [generate_speech] is to leave and return for
    the segments [segs], in emission order: one per segment, indexed
    from 0, or one for their concatenation when there is a segment. *)
Definition expected_files (self : TTSManager) (filename_prefix : string)
    (combine_segments : bool) (segs : list Segment) : list path :=
  if combine_segments then
    match segs with
    | [] => []
    | _ => [combined_filename self filename_prefix]
    end
  else map (segment_filename self filename_prefix)
           (seqZ 0 (Z.of_nat (length segs))).

Definition expected_disk (self : TTSManager) (filename_prefix : string)
    (combine_segments : bool) (segs : list Segment) (disk : gmap path File)
  : gmap path File :=
  if combine_segments then
    match segs with
    | [] => disk
    | _ => <[combined_filename self filename_prefix :=
               Wav (concat (map seg_audio segs)) 24000]> disk
    end
  else fold_left
         (fun d (it : Z * Segment) =>
            <[segment_filename self filename_prefix (fst it) :=
                Wav (seg_audio (snd it)) 24000]> d)
         (enumerate segs) disk.


End Spec.

Import Spec.

(* ===================================================================== *)
(** ** The code in closed form *)
(* ===================================================================== *)

(** What the loops of the code compute, written without the loops; the
    facts below prove that the code computes them. *)
Module Closed.


(** The chapter the extractor appends for a unit that counts, when the
    counter is [chapter_num]. *)
Definition chapter_of (chapter_num : Z) (item : Item) : Chapter :=
  let title :=
    match find_heading item with
    | Some heading => strip heading
    | None => "Chapter " +:+ str_of_int chapter_num
    end in
  {| number := chapter_num;
     title := title;
     filename := chapter_filename chapter_num title;
     content := _clean_text (get_text item);
     word_count := Z.of_nat (length (split (get_text item))) |}.

(** What the loop over the segments prints. *)
Definition segment_messages (self : TTSManager) (filename_prefix : string)
    (n : Z) (per_segment : bool) (l : list (Z * Segment)) : list message :=
  flat_map
    (fun it : Z * Segment =>
       SegmentProgress (fst it + 1) n (gs (snd it)) (ps (snd it))
       :: (if per_segment
           then [SavedSegment (segment_filename self filename_prefix (fst it))]
           else []))
    l.

(** What a call of [generate_speech] prints after its first line. *)
Definition speech_messages (self : TTSManager) (filename_prefix : string)
    (combine_segments : bool) (segs : list Segment) : list message :=
  segment_messages self filename_prefix (Z.of_nat (length segs))
    (negb combine_segments) (enumerate segs)
  ++ (if combine_segments then
        match segs with
        | [] => []
        | _ => [CombinedSaved (combined_filename self filename_prefix);
                CombinedDuration (duration_mins (concat (map seg_audio segs)))
                                 (Z.of_nat (length segs))]
        end
      else []).


(** Where [generate_audio] reads the text of a chapter. *)
Definition chapter_file (book_dir : path) (chapter : Summary) : path :=
  joinpath (joinpath (joinpath book_dir "content") "chapters")
           (s_filename chapter +:+ ".md").



Section WithExternals.
Context {ext : Externals}.

End WithExternals.

End Closed.

Import Closed.

(* ===================================================================== *)
(** ** Concrete inputs *)
(* ===================================================================== *)

Module Fixtures.

(** The scenario text: ["Hello   world\n\n\n\nBye"]. *)
Definition hello_world_bye : string :=
  "Hello   world" +:+ newline +:+ newline +:+ newline +:+ newline +:+ "Bye".

(** A unit with a heading, and a unit without one. *)
Definition unit_with_heading (heading : string) : Item :=
  mkItem ITEM_DOCUMENT "Some text." (Some heading).
Definition unit_without_heading : Item := mkItem ITEM_DOCUMENT "Some text." None.

Definition two_segments : list Segment :=
  [ mkSegment "Hello" "h@loU" [1; 2; 3]%Z; mkSegment "there" "DE@" [4; 5]%Z ].

(** An engine that raises mid-synthesis for [af_sarah] after 5 seconds,
    emits nothing for [af_bella] in 3 seconds, and two segments in 2
    seconds otherwise; files are found and read back as written. *)
Definition scripted_engine : Externals := {|
  KPipeline := fun _ _ => None;
  pipeline := fun _ _ voice =>
    if String.eqb voice "af_sarah"
    then mkEmission [] (Some (Error "RuntimeError")) 5
    else if String.eqb voice "af_bella"
    then mkEmission [] None 3
    else mkEmission two_segments None 2;
  stat_st_size := fun o p =>
    match fst o !! p with
    | Some (Wav data _) => Ok (44 + 2 * Z.of_nat (length data))%Z
    | _ => Raise (Error "FileNotFoundError")
    end;
  sf_read := fun o p =>
    match fst o !! p with
    | Some (Wav data samplerate) => Ok (data, samplerate)
    | _ => Raise (Error "LibsndfileError")
    end;
|}.


Definition empty_world : World := mkWorld ∅ [] 0.



Definition book_world : World :=
  mkWorld
    (<[ ["books"; "b"; "content"; "chapters"; "02-two.md"] := Text "# Two" ]>
    (<[ ["books"; "b"; "content"; "chapters"; "01-one.md"] := Text "# One" ]> ∅))
    [] 0.
Definition book_tts : TTSManager :=
  mkTTSManager "a" ["books"; "b"; "audio"; "kokoro"; "chapters"].

(** A small self-delimiting text format standing in for YAML where a
    concrete serialiser is needed: strings and keys as length-prefixed
    text, integers in decimal, lists and dicts bracketed. *)
Definition netstring (s : string) : string :=
  str_of_int (Z.of_nat (String.length s)) +:+ ":" +:+ s.

Fixpoint dump_depth (depth : nat) (v : pyval) : string :=
  match depth with
  | O => ""
  | S d =>
      match v with
      | PStr s => "s" +:+ netstring s
      | PInt z => "i" +:+ str_of_int z +:+ ";"
      | PList l =>
          "l" +:+ fold_right (fun x acc => dump_depth d x +:+ acc) "e" l
      | PDict m =>
          "d" +:+ fold_right
                    (fun kv acc => netstring (fst kv) +:+ dump_depth d (snd kv) +:+ acc)
                    "e" (map_to_list m)
      end
  end.

Fixpoint read_digits (acc : N) (s : list ascii) : N * list ascii :=
  match s with
  | c :: s' =>
      if isdecimal c then read_digits (acc * 10 + (ord c - 48))%N s' else (acc, s)
  | [] => (acc, s)
  end.

Definition read_netstring (s : list ascii) : option (string * list ascii) :=
  let '(n, r) := read_digits 0 s in
  match r with
  | ":"%char :: r' =>
      if (N.to_nat n <=? length r')%nat
      then Some (str (take (N.to_nat n) r'), drop (N.to_nat n) r')
      else None
  | _ => None
  end.

Fixpoint parse (fuel : nat) (s : list ascii) : option (pyval * list ascii) :=
  match fuel with
  | O => None
  | S f =>
      match s with
      | "s"%char :: r =>
          match read_netstring r with
          | Some (t, r') => Some (PStr t, r')
          | None => None
          end
      | "i"%char :: "-"%char :: r =>
          match read_digits 0 r with
          | (n, ";"%char :: r') => Some (PInt (- Z.of_N n), r')
          | _ => None
          end
      | "i"%char :: r =>
          match read_digits 0 r with
          | (n, ";"%char :: r') => Some (PInt (Z.of_N n), r')
          | _ => None
          end
      | "l"%char :: r =>
          match parse_items f r with
          | Some (items, r') => Some (PList items, r')
          | None => None
          end
      | "d"%char :: r =>
          match parse_pairs f r with
          | Some (pairs, r') => Some (PDict (list_to_map pairs), r')
          | None => None
          end
      | _ => None
      end
  end
with parse_items (fuel : nat) (s : list ascii)
  : option (list pyval * list ascii) :=
  match fuel with
  | O => None
  | S f =>
      match s with
      | "e"%char :: r => Some ([], r)
      | _ =>
          match parse f s with
          | Some (v, r) =>
              match parse_items f r with
              | Some (vs, r') => Some (v :: vs, r')
              | None => None
              end
          | None => None
          end
      end
  end
with parse_pairs (fuel : nat) (s : list ascii)
  : option (list (string * pyval) * list ascii) :=
  match fuel with
  | O => None
  | S f =>
      match s with
      | "e"%char :: r => Some ([], r)
      | _ =>
          match read_netstring s with
          | Some (k, r) =>
              match parse f r with
              | Some (v, r') =>
                  match parse_pairs f r' with
                  | Some (kvs, r'') => Some ((k, v) :: kvs, r'')
                  | None => None
                  end
              | None => None
              end
          | None => None
          end
      end
  end.

Definition netstring_yaml : Yaml := {|
  dump := dump_depth 8;
  safe_load := fun text =>
    match parse (2 * String.length text + 2) (chars text) with
    | Some (v, []) => Ok v
    | _ => Raise (Error "YAMLError")
    end;
|}.


Definition sample_chapters : list Chapter :=
  extract_chapters [unit_with_heading "Part One: a_b"; unit_without_heading].

End Fixtures.

Import Fixtures.

(* ===================================================================== *)
(** ** Shapes of texts *)
(* ===================================================================== *)

(** Closed forms and shape predicates for the further properties of the
    text functions. *)
Module Shapes.

(** [re.sub] of a pattern [cs+] in closed form: every maximal run of
    characters of [cs] becomes one copy of [repl].  [in_run] tells that
    the previous character was in [cs]. *)
Fixpoint squeeze (f : ascii -> bool) (repl : list ascii) (in_run : bool)
    (l : list ascii) : list ascii :=
  match l with
  | [] => []
  | c :: l' =>
      if f c
      then (if in_run then squeeze f repl true l' else repl ++ squeeze f repl true l')
      else c :: squeeze f repl false l'
  end.

Fixpoint take_while {A} (p : A -> bool) (l : list A) : list A :=
  match l with
  | [] => []
  | x :: l' => if p x then x :: take_while p l' else []
  end.

(** A text in which the characters of [f] occur only as single
    separators [r]: every character of [f] is [r], and none follows a
    character of [f].  [after] tells that the text comes after a
    character of [f] (or at the start of a text that must not begin with
    one). *)
Fixpoint separated (f : ascii -> bool) (r : ascii) (after : bool)
    (l : list ascii) : bool :=
  match l with
  | [] => true
  | c :: l' =>
      if f c
      then Ascii.eqb c r && negb after && separated f r true l'
      else separated f r false l'
  end.

(** The text ends with a whitespace character. *)
Definition ends_with_space (l : list ascii) : bool :=
  match rev l with
  | c :: _ => isspace c
  | [] => false
  end.


End Shapes.

Import Shapes.

(* ===================================================================== *)
(** ** Outcomes and footprints *)
(* ===================================================================== *)

Module Outcomes.


End Outcomes.
Import Outcomes.

Module Footprint.

(** A computation that leaves the files and the clock as they were,
    whether it returns or raises. *)
Definition read_only {A} (m : Py A) : Prop :=
  forall w, fs (fst (m w)) = fs w /\ clock (fst (m w)) = clock w.

End Footprint.
Import Footprint.

Module Growth.

(** From [w] to [w'] nothing was printed, no time passed, every entry is
    still there, and the new entries are directories. *)
Definition only_adds_directories (w w' : World) : Prop :=
  console w' = console w /\ clock w' = clock w
  /\ (forall (p : path) f, fs w !! p = Some f -> fs w' !! p = Some f)
  /\ (forall (p : path) f, fs w' !! p = Some f -> fs w !! p = Some f \/ f = Dir).

(** No regular file stands at [p] or at one of its ancestors. *)
Definition way_clear (w : World) (p : path) : Prop :=
  forall (q : path) f, q `prefix_of` p -> fs w !! q = Some f -> f = Dir.

End Growth.
Import Growth.

(* ===================================================================== *)
(** ** book_processor.py: the directory structure of a book *)
(* ===================================================================== *)

Module BookLayout.
Local Open Scope py_scope.

(** [p.mkdir(parents=True, exist_ok=True)] for [p = done / todo]: the
    missing directories on the way to [p] are created from the top; a
    directory that exists is left alone; an entry that is not a directory
    raises [FileExistsError] when it is [p] itself and
    [NotADirectoryError] when it is one of its ancestors. *)
Fixpoint mkdir_from (done : path) (todo : list string) : Py unit :=
  match todo with
  | [] => ret tt
  | name :: todo' =>
      let q := joinpath done name in
      fun w =>
        match fs w !! q with
        | Some Dir => mkdir_from q todo' w
        | Some _ =>
            (w, Raise (Error match todo' with
                             | [] => "FileExistsError"
                             | _ => "NotADirectoryError"
                             end))
        | None => (put_file q Dir ;; mkdir_from q todo') w
        end
  end.

Definition mkdir_parents_exist_ok (p : path) : Py unit := mkdir_from [] p.

Record BookProcessor : Type := mkBookProcessor { base_path : path }.

(** The dict [structure], in insertion order.  [book_slug] is taken to
    be one path component. *)
Definition book_structure (self : BookProcessor) (book_slug : string)
  : list (string * path) :=
  let book_dir := joinpath (base_path self) book_slug in
  [ ("root", book_dir);
    ("source", joinpath book_dir "source");
    ("content", joinpath book_dir "content");
    ("chapters", joinpath (joinpath book_dir "content") "chapters");
    ("text", joinpath (joinpath book_dir "content") "text");
    ("audio", joinpath book_dir "audio");
    ("kokoro", joinpath (joinpath (joinpath book_dir "audio") "kokoro") "chapters");
    ("processing", joinpath book_dir "processing");
    ("logs", joinpath (joinpath book_dir "processing") "logs");
    ("temp", joinpath (joinpath book_dir "processing") "temp") ].

Definition create_book_structure (self : BookProcessor) (book_slug : string)
  : Py (list (string * path)) :=
  let structure := book_structure self book_slug in
  (* Create all directories *)
  for_each (map snd structure) (fun _ path => mkdir_parents_exist_ok path) tt ;;
  ret structure.


End BookLayout.
Import BookLayout.

(* ===================================================================== *)
(** ** Concrete books and disks *)
(* ===================================================================== *)

Module Scenes.

(** A book with a title, a unit with a heading and a unit without. *)
Definition sample_book : Book :=
  mkBook (fun field => if String.eqb field "title" then ["A Book"] else [])
         [unit_with_heading "Part One: a_b"; unit_without_heading].

(** The disk after the directory structure of the book [a-book] has been
    created on an empty one. *)
Definition structure_world : World :=
  fst (create_book_structure (mkBookProcessor ["books"]) "a-book" empty_world).

(** The disk after the steps of a conversion of [sample_book]. *)
Definition converted_world : World :=
  let chapters := snd (extract_epub_content sample_book) in
  let w2 := fst (save_metadata (yaml := netstring_yaml) ["books"; "a-book"]
                   (<["slug" := "a-book"]> (fst (extract_epub_content sample_book)))
                   chapters structure_world) in
  fst (save_chapters ["books"; "a-book"; "content"; "chapters"] chapters w2).

(** A book directory with a table of contents and no metadata file. *)
Definition toc_only_world : World :=
  mkWorld
    (<[ ["books"; "a-book"; "toc.yml"] :=
          Text (dump (Yaml := netstring_yaml)
                  (PDict {[ "chapters" := PList (map toc_entry sample_chapters) ]})) ]>
       (fs structure_world))
    [] 0.

End Scenes.
Import Scenes.

(* ===================================================================== *)
(** ** Facts about strings and patterns *)
(* ===================================================================== *)

Section ReFacts.

Lemma chars_str (l : list ascii) : chars (str l) = l.
Proof. apply list_ascii_of_string_of_list_ascii. Qed.

Lemma str_chars (s : string) : str (chars s) = s.
Proof. apply string_of_list_ascii_of_string. Qed.

(** A repetition followed by a pattern that always matches always
    matches. *)
Lemma greedy_total cs k s :
  (forall s', is_Some (k s')) -> is_Some (greedy cs k s).
Proof.
  intros Hk. induction s as [|c s IH]; simpl; [apply Hk|].
  destruct (in_cset cs c); [|apply Hk].
  destruct IH as [n ->]. eauto.
Qed.

(** A pattern made of one [cs+] matches wherever the first character is
    in [cs], and the match is not empty. *)
Lemma match_len_plus cs c s :
  in_cset cs c = true -> exists n, match_len [(cs, Plus)] (c :: s) = Some (S n).
Proof.
  intros Hc. simpl. rewrite Hc.
  destruct (greedy_total cs (match_len []) s) as [n Hn]; [simpl; eauto|].
  simpl in Hn. rewrite Hn. simpl. eauto.
Qed.


(** A pattern that starts with an atom without [*] never matches the
    empty string: so it is for the five patterns of the program. *)
Lemma match_len_nonempty cs q p s :
  q <> Star -> match_len ((cs, q) :: p) s <> Some 0.
Proof.
  intros Hq. destruct q; [|congruence|]; cbn [match_len];
    destruct s as [|c s]; try discriminate;
    destruct (in_cset cs c); try discriminate.
  - destruct (match_len p s); discriminate.
  - destruct (greedy cs (match_len p) s); discriminate.
Qed.

(** A pattern whose first atom needs a character of [cs] does not match
    where the first character is outside [cs]. *)
Lemma match_len_first_fails cs q p c s :
  q <> Star -> in_cset cs c = false -> match_len ((cs, q) :: p) (c :: s) = None.
Proof. intros Hq Hc. destruct q; simpl; rewrite ?Hc; congruence. Qed.

(** What [re.sub] leaves: characters of the replacement, and characters
    of the input at which the pattern did not match. *)
Lemma sub_chars_Forall (P : ascii -> Prop) p repl skip s :
  Forall P repl ->
  Forall (fun c => forall s', (forall n, match_len p (c :: s') <> Some (S n)) -> P c) s ->
  Forall P (sub_chars p repl skip s).
Proof.
  intros Hrepl Hs. revert skip.
  induction Hs as [|c s Hc Hs IH]; intros skip; simpl; [constructor|].
  destruct skip as [|k]; [|apply IH].
  destruct (match_len p (c :: s)) as [[|n]|] eqn:Hm.
  - constructor; [|apply IH]. apply (Hc s). intros n. rewrite Hm. discriminate.
  - apply Forall_app. split; [assumption|apply IH].
  - constructor; [|apply IH]. apply (Hc s). intros n. rewrite Hm. discriminate.
Qed.

(** Where the pattern matches nowhere, [re.sub] returns its input. *)
Lemma sub_chars_no_match p repl s :
  Forall (fun c => forall s', match_len p (c :: s') = None) s ->
  sub_chars p repl 0 s = s.
Proof.
  induction 1 as [|c s Hc Hs IH]; simpl; [reflexivity|].
  rewrite Hc, IH. reflexivity.
Qed.

(** After the whitespace collapse, the only whitespace left is the
    space: in particular no newline. *)
Lemma collapsed_no_newline skip s :
  Forall (fun c => c <> LF) (sub_chars re_whitespace (chars " ") skip s).
Proof.
  apply sub_chars_Forall.
  - repeat constructor. discriminate.
  - apply Forall_forall. intros c _ s' Hno ->.
    destruct (match_len_plus Space LF s' eq_refl) as [n Hn].
    apply (Hno n). exact Hn.
Qed.

(** A pattern that starts with a newline matches nowhere in a text
    without newlines. *)
Lemma newline_pattern_no_op p repl s :
  Forall (fun c => c <> LF) s ->
  sub_chars ((Lit LF, One) :: p) repl 0 s = s.
Proof.
  intros Hs. apply sub_chars_no_match.
  eapply Forall_impl; [exact Hs|]. intros c Hc s'.
  apply match_len_first_fails; [discriminate|].
  cbn [in_cset]. apply Ascii.eqb_neq. congruence.
Qed.

Lemma sub_newline_pattern_after_collapse p repl text :
  sub ((Lit LF, One) :: p) repl (sub re_whitespace " " text)
  = sub re_whitespace " " text.
Proof.
  unfold sub at 1. set (t := sub re_whitespace " " text).
  rewrite newline_pattern_no_op; [apply str_chars|].
  subst t. unfold sub. rewrite chars_str. apply collapsed_no_newline.
Qed.

End ReFacts.

(* ===================================================================== *)
(** ** Text normalisation *)
(* ===================================================================== *)

(** C1. The specification's scenario expects
    ["Hello world\n\nBye"] from the normaliser on
    ["Hello   world\n\n\n\nBye"].  The code returns ["Hello world Bye"]:
    the whitespace collapse turns the blank lines into one space before
    the paragraph-break step can see them. *)
Theorem clean_text_hello_world_bye :
  _clean_text hello_world_bye = "Hello world Bye"
  /\ _clean_text hello_world_bye <> "Hello world" +:+ newline +:+ newline +:+ "Bye".
Proof. split; [reflexivity|discriminate]. Qed.

(** C2. For every input the page-number step is a no-op: the normaliser
    returns what it returns with that step deleted, because the text it
    receives contains no newline. *)
Theorem clean_text_page_number_step_no_op (text : string) :
  _clean_text text = clean_text_without_page_numbers text
  /\ sub re_page_number newline (sub re_whitespace " " text)
     = sub re_whitespace " " text
  /\ Forall (fun c => c <> LF) (chars (sub re_whitespace " " text)).
Proof.
  assert (Hstep : sub re_page_number newline (sub re_whitespace " " text)
                  = sub re_whitespace " " text)
    by apply sub_newline_pattern_after_collapse.
  split; [|split]; [|exact Hstep|].
  - unfold _clean_text, clean_text_without_page_numbers. rewrite Hstep. reflexivity.
  - unfold sub. rewrite chars_str. apply collapsed_no_newline.
Qed.

(* ===================================================================== *)
(** ** Chapter extraction *)
(* ===================================================================== *)

Section StripFacts.

Lemma drop_while_nil {A} (p : A -> bool) l :
  drop_while p l = [] <-> forallb p l = true.
Proof.
  induction l as [|x l IH]; simpl; [tauto|].
  destruct (p x); simpl; [exact IH|]. split; discriminate.
Qed.

Lemma drop_while_head {A} (p : A -> bool) l x t :
  drop_while p l = x :: t -> p x = false.
Proof.
  induction l as [|y l IH]; simpl; [discriminate|].
  destruct (p y) eqn:Hy; [exact IH|]. intros [= <- <-]. exact Hy.
Qed.

Lemma drop_while_snoc {A} (p : A -> bool) l x :
  p x = false -> drop_while p (l ++ [x]) <> [].
Proof.
  intros Hx. induction l as [|y l IH]; simpl.
  - rewrite Hx. discriminate.
  - destruct (p y); [exact IH|discriminate].
Qed.

Lemma truthy_str l : truthy (str l) = match l with [] => false | _ => true end.
Proof. destruct l; reflexivity. Qed.

Lemma forallb_existsb_negb {A} (p : A -> bool) l :
  forallb p l = negb (existsb (fun x => negb (p x)) l).
Proof.
  induction l as [|x l IH]; simpl; [reflexivity|].
  rewrite IH. destruct (p x); reflexivity.
Qed.

(** [s.strip()] is non-empty exactly when [s] has a character that is
    not whitespace. *)
Lemma truthy_strip s :
  truthy (strip s) = existsb (fun c => negb (isspace c)) (chars s).
Proof.
  unfold strip, lstrip_chars, rstrip_chars. rewrite truthy_str.
  destruct (drop_while isspace (chars s)) as [|x t] eqn:Hd.
  - apply drop_while_nil in Hd. rewrite forallb_existsb_negb in Hd.
    simpl. destruct (existsb _ _); [discriminate|reflexivity].
  - assert (Hx : isspace x = false) by (eapply drop_while_head; eauto).
    assert (Hex : existsb (fun c => negb (isspace c)) (chars s) = true).
    { destruct (existsb _ _) eqn:He; [reflexivity|].
      assert (Hall : forallb isspace (chars s) = true)
        by (rewrite forallb_existsb_negb, He; reflexivity).
      apply drop_while_nil in Hall. congruence. }
    rewrite Hex. simpl rev.
    destruct (drop_while isspace (rev t ++ [x])) as [|y u] eqn:Hr.
    + exfalso. revert Hr. apply drop_while_snoc. exact Hx.
    + destruct (rev (y :: u)) eqn:Hrev; [|reflexivity].
      apply (f_equal (@length _)) in Hrev.
      rewrite length_rev in Hrev. discriminate.
Qed.

End StripFacts.

Section ExtractFacts.

Lemma extract_item_unit st item :
  is_chapter_unit item = true ->
  extract_item st item = (fst st ++ [chapter_of (snd st) item], (snd st + 1)%Z).
Proof.
  destruct st as [chs n]. unfold is_chapter_unit, has_text, extract_item.
  intros [Hty Htx]%andb_true_iff. rewrite Hty, truthy_strip, Htx. reflexivity.
Qed.

Lemma extract_item_skip st item :
  is_chapter_unit item = false -> extract_item st item = st.
Proof.
  destruct st as [chs n]. unfold is_chapter_unit, has_text, extract_item.
  destruct (get_type item =? ITEM_DOCUMENT)%Z; [|reflexivity].
  rewrite truthy_strip. simpl. intros ->. reflexivity.
Qed.

(** The loop in closed form: the units that count, numbered from the
    counter's initial value. *)
Lemma extract_loop items chs n :
  fold_left extract_item items (chs, n)
  = (chs ++ imap (fun i => chapter_of (n + Z.of_nat i)) (List.filter is_chapter_unit items),
     (n + Z.of_nat (length (List.filter is_chapter_unit items)))%Z).
Proof.
  revert chs n.
  induction items as [|item items IH]; intros chs n; cbn [fold_left List.filter].
  - simpl. rewrite app_nil_r, Z.add_0_r. reflexivity.
  - destruct (is_chapter_unit item) eqn:Hu.
    + rewrite extract_item_unit by exact Hu. cbn [fst snd].
      rewrite IH, <- app_assoc. cbn [app length]. rewrite imap_cons. f_equal.
      * f_equal. rewrite Z.add_0_r. f_equal.
        apply imap_ext. intros i x _. simpl. f_equal. lia.
      * lia.
    + rewrite extract_item_skip by exact Hu. apply IH.
Qed.

Lemma extract_chapters_closed items :
  extract_chapters items
  = imap (fun i => chapter_of (1 + Z.of_nat i)) (List.filter is_chapter_unit items).
Proof. unfold extract_chapters. rewrite extract_loop. reflexivity. Qed.

Lemma imap_number_seqZ (l : list Item) n :
  map number (imap (fun i => chapter_of (n + Z.of_nat i)) l)
  = seqZ n (Z.of_nat (length l)).
Proof.
  revert n. induction l as [|x l IH]; intros n; [reflexivity|].
  rewrite imap_cons. simpl map. simpl length.
  rewrite Nat2Z.inj_succ, seqZ_cons by lia. rewrite Z.add_0_r. f_equal.
  replace (Z.pred (Z.succ (Z.of_nat (length l)))) with (Z.of_nat (length l)) by lia.
  rewrite <- IH. f_equal. apply imap_ext. intros i y _. simpl. f_equal. lia.
Qed.

End ExtractFacts.

(** C4. With [K] document units that have non-whitespace text, extraction
    returns exactly [K] chapters, numbered 1, 2, ..., [K] in order; a
    unit that does not count (not a document, or with empty or
    whitespace-only text) leaves the chapter list and the counter as they
    were. *)
Theorem extract_chapters_numbered (book : Book) :
  let chapters := snd (extract_epub_content book) in
  let K := length (List.filter is_chapter_unit (get_items book)) in
  length chapters = K
  /\ map number chapters = seqZ 1 (Z.of_nat K)
  /\ (forall chapters chapter_num item,
        is_chapter_unit item = false ->
        extract_item (chapters, chapter_num) item = (chapters, chapter_num)).
Proof.
  intros chapters K. subst chapters. cbn [extract_epub_content snd].
  rewrite extract_chapters_closed. split; [|split].
  - apply length_imap.
  - apply imap_number_seqZ.
  - intros chapters chapter_num item Hu. apply extract_item_skip. exact Hu.
Qed.

(** The scenario of the specification: three document units, one of them
    empty, give two chapters numbered 1 and 2. *)
Example extract_three_units_one_empty :
  map number
    (snd (extract_epub_content
            (mkBook (fun _ => [])
               [unit_with_heading "One"; mkItem ITEM_DOCUMENT "  " None;
                unit_without_heading])))
  = [1; 2]%Z.
Proof. reflexivity. Qed.

(* ===================================================================== *)
(** ** Chapter file names *)
(* ===================================================================== *)

Section FilenameFacts.

Lemma chars_append s1 s2 : chars (s1 +:+ s2) = chars s1 ++ chars s2.
Proof. induction s1 as [|c s1 IH]; simpl; [reflexivity|]. f_equal. exact IH. Qed.

Lemma string_of_uint_decimal d :
  Forall (fun c => isdecimal c = true) (chars (NilEmpty.string_of_uint d)).
Proof. induction d; simpl; constructor; auto. Qed.

Lemma zeros_decimal n : Forall (fun c => isdecimal c = true) (chars (zeros n)).
Proof. induction n; simpl; constructor; auto. Qed.

Lemma length_zeros n : String.length (zeros n) = n.
Proof. induction n as [|n IH]; simpl; [reflexivity|]. rewrite IH. reflexivity. Qed.

Lemma string_length_append s1 s2 :
  String.length (s1 +:+ s2) = String.length s1 + String.length s2.
Proof. induction s1 as [|c s1 IH]; simpl; [reflexivity|]. rewrite IH. reflexivity. Qed.

(** A non-negative number formatted with [02d]: decimal digits, at
    least two of them. *)
Lemma format_02d_digits z :
  (0 <= z)%Z ->
  Forall (fun c => isdecimal c = true) (chars (format_0d 2 z))
  /\ 2 <= String.length (format_0d 2 z).
Proof.
  intros Hz. unfold format_0d. destruct (Z.ltb_spec z 0); [lia|].
  unfold zfill, digits_of. split.
  - rewrite chars_append. apply Forall_app. split.
    + apply zeros_decimal.
    + apply string_of_uint_decimal.
  - rewrite string_length_append, length_zeros. lia.
Qed.






Lemma extracted_chapter items ch :
  ch ∈ extract_chapters items ->
  (1 <= number ch)%Z /\ filename ch = chapter_filename (number ch) (title ch).
Proof.
  rewrite extract_chapters_closed.
  intros (i & item & -> & _)%elem_of_lookup_imap. simpl. split; [lia|reflexivity].
Qed.

End FilenameFacts.




Lemma filename_hundredth_chapter :
  exists ch, ch ∈ extract_chapters (repeat unit_without_heading 100)
             /\ filename ch = "100-chapter-100"
             /\ filename_matches (filename ch) = false.
Proof.
  exists (chapter_of 100 unit_without_heading). split.
  - rewrite extract_chapters_closed. apply elem_of_lookup_imap.
    exists 99, unit_without_heading. split; [reflexivity|].
    vm_compute. reflexivity.
  - split; vm_compute; reflexivity.
Qed.

(* ===================================================================== *)
(** ** Speech generation *)
(* ===================================================================== *)

Section SpeechFacts.
Context {ext : Externals}.
Local Open Scope py_scope.

Lemma bind_ok {A B} (m : Py A) (k : A -> Py B) w w' a :
  m w = (w', Ok a) -> bind m k w = k a w'.
Proof. unfold bind. intros ->. reflexivity. Qed.

Lemma bind_raise {A B} (m : Py A) (k : A -> Py B) w w' e :
  m w = (w', Raise e) -> bind m k w = (w', Raise e).
Proof. unfold bind. intros ->. reflexivity. Qed.

Lemma print_spec m w :
  print m w = (mkWorld (fs w) (console w ++ [m]) (clock w), Ok tt).
Proof. reflexivity. Qed.

(** The loop over the segments of [generate_speech]. *)
Lemma segments_loop self filename_prefix n save_files combine_segments
      (l : list (Z * Segment)) audio_files all_audio_segments w :
  let per_segment := save_files && negb combine_segments in
  for_each l
    (fun (st : list path * list audio) (it : Z * Segment) =>
       let '(audio_files, all_audio_segments) := st in
       let '(i, seg) := it in
       print (SegmentProgress (i + 1) n (gs seg) (ps seg)) ;;
       let all_audio_segments := all_audio_segments ++ [seg_audio seg] in
       if save_files && negb combine_segments then
         let filename := segment_filename self filename_prefix i in
         sf_write filename (seg_audio seg) 24000 ;;
         print (SavedSegment filename) ;;
         ret (audio_files ++ [filename], all_audio_segments)
       else ret (audio_files, all_audio_segments))
    (audio_files, all_audio_segments) w
  = (mkWorld
       (if per_segment
        then fold_left
               (fun d (it : Z * Segment) =>
                  <[segment_filename self filename_prefix (fst it) :=
                      Wav (seg_audio (snd it)) 24000]> d) l (fs w)
        else fs w)
       (console w ++ segment_messages self filename_prefix n per_segment l)
       (clock w),
     Ok (audio_files
           ++ (if per_segment
               then map (fun it => segment_filename self filename_prefix (fst it)) l
               else []),
         all_audio_segments ++ map (fun it => seg_audio (snd it)) l)).
Proof.
  intros per_segment. subst per_segment.
  revert audio_files all_audio_segments w.
  induction l as [|[i seg] l IH]; intros audio_files all_audio_segments w.
  - destruct w, (save_files && negb combine_segments);
      simpl; rewrite !app_nil_r; reflexivity.
  - cbn [for_each]. destruct (save_files && negb combine_segments) eqn:Hps.
    + unfold bind at 1 2 3 4. simpl. rewrite IH. simpl.
      rewrite <- !app_assoc. reflexivity.
    + unfold bind at 1 2. simpl. rewrite IH. simpl.
      rewrite <- !app_assoc. reflexivity.
Qed.

Lemma combine_indices {A} (l : list A) start :
  map fst (combine (map Z.of_nat (seq start (length l))) l)
  = map Z.of_nat (seq start (length l))
  /\ map snd (combine (map Z.of_nat (seq start (length l))) l) = l.
Proof.
  revert start. induction l as [|x l IH]; intros start; simpl; [auto|].
  destruct (IH (S start)) as [-> ->]. auto.
Qed.

Lemma enumerate_fst {A} (l : list A) :
  map fst (enumerate l) = seqZ 0 (Z.of_nat (length l)).
Proof.
  unfold enumerate. rewrite (proj1 (combine_indices l 0)).
  unfold seqZ. rewrite Nat2Z.id. apply map_ext. intros i. lia.
Qed.

Lemma enumerate_snd {A} (l : list A) : map snd (enumerate l) = l.
Proof. unfold enumerate. apply combine_indices. Qed.

(** [generate_speech] with [save_files=True], in closed form: the engine
    is run once; if it raises nothing has been written; otherwise the
    expected files are written and returned. *)
Lemma generate_speech_run self text voice filename_prefix combine_segments w :
  let em := pipeline (outside w) text voice in
  generate_speech self text voice filename_prefix true combine_segments w
  = match failure em with
    | Some e =>
        (mkWorld (fs w) (console w ++ [GeneratingSpeech voice])
                 (clock w + took em), Raise e)
    | None =>
        (mkWorld
           (expected_disk self filename_prefix combine_segments (emitted em) (fs w))
           (console w ++ GeneratingSpeech voice
              :: speech_messages self filename_prefix combine_segments (emitted em))
           (clock w + took em),
         Ok (expected_files self filename_prefix combine_segments (emitted em)))
    end.
Proof.
  intros em. unfold generate_speech.
  rewrite (bind_ok _ _ _ _ _ (print_spec _ w)).
  unfold list_generator at 1, bind at 1. unfold outside. cbn [fs clock elapse console].
  fold (outside w). fold em.
  destruct (failure em) as [e|]; [reflexivity|].
  unfold bind at 1. rewrite segments_loop. cbn [fs clock console andb].
  unfold expected_files, expected_disk, speech_messages.
  assert (Ha : map (fun it : Z * Segment => seg_audio (snd it))
                   (enumerate (emitted em)) = map seg_audio (emitted em))
    by (rewrite <- (map_map snd seg_audio), enumerate_snd; reflexivity).
  assert (Hf : map (fun it : Z * Segment =>
                      segment_filename self filename_prefix (fst it))
                   (enumerate (emitted em))
               = map (segment_filename self filename_prefix)
                     (seqZ 0 (Z.of_nat (length (emitted em)))))
    by (rewrite <- enumerate_fst, map_map; reflexivity).
  rewrite Ha, Hf. cbn [app elapse fs console clock].
  destruct combine_segments; cbn [negb andb].
  - destruct (emitted em) as [|seg segs] eqn:Hsegs.
    + cbn. rewrite !app_nil_r. reflexivity.
    + cbn [map]. unfold bind, sf_write, put_file, print, ret.
      cbn [fs clock console app]. rewrite <- !app_assoc. reflexivity.
  - unfold ret. rewrite app_nil_r, <- app_assoc. reflexivity.
Qed.

End SpeechFacts.

Section SegmentNames.

Lemma zeros_string_of_uint k d :
  zeros k +:+ NilEmpty.string_of_uint d
  = NilEmpty.string_of_uint (Nat.iter k Decimal.D0 d).
Proof.
  induction k as [|k IH]; [reflexivity|].
  change (String "0" (zeros k +:+ NilEmpty.string_of_uint d)
          = String "0" (NilEmpty.string_of_uint (Nat.iter k Decimal.D0 d))).
  rewrite IH. reflexivity.
Qed.

Lemma of_uint_leading_zeros k d :
  N.of_uint (Nat.iter k Decimal.D0 d) = N.of_uint d.
Proof. induction k as [|k IH]; simpl; [reflexivity|]. exact IH. Qed.

(** Zero padding keeps the number readable: the format is injective. *)
Lemma zfill_digits_inj w1 w2 n1 n2 :
  zfill w1 (digits_of n1) = zfill w2 (digits_of n2) -> n1 = n2.
Proof.
  unfold zfill, digits_of. rewrite !zeros_string_of_uint. intros H.
  apply (f_equal NilEmpty.uint_of_string) in H.
  rewrite !NilEmpty.usu in H. injection H as Hd. rename Hd into H.
  apply (f_equal N.of_uint) in H.
  rewrite !of_uint_leading_zeros, !DecimalN.Unsigned.of_to in H. exact H.
Qed.

Lemma format_0d_inj width z1 z2 :
  (0 <= z1)%Z -> (0 <= z2)%Z ->
  format_0d width z1 = format_0d width z2 -> z1 = z2.
Proof.
  intros H1 H2. unfold format_0d.
  destruct (Z.ltb_spec z1 0) as [Hlt1|Hge1], (Z.ltb_spec z2 0) as [Hlt2|Hge2];
    try lia.
  intros Heq%zfill_digits_inj. lia.
Qed.

Lemma append_inv_head s s1 s2 : s +:+ s1 = s +:+ s2 -> s1 = s2.
Proof. induction s as [|c s IH]; simpl; [auto|]. intros [= H]. auto. Qed.




End SegmentNames.


(* ===================================================================== *)
(** ** Voice comparison *)
(* ===================================================================== *)

Section CompareFacts.
Context {ext : Externals}.
Local Open Scope py_scope.






End CompareFacts.

Section CompareLoop.
Context {ext : Externals}.



End CompareLoop.

Section CompareRun.
Context {ext : Externals}.
Local Open Scope py_scope.





End CompareRun.









(* ===================================================================== *)
(** ** Audio generation for the chapters of a book *)
(* ===================================================================== *)

Section GenerateAudioFacts.
Context {ext : Externals}.
Local Open Scope py_scope.


End GenerateAudioFacts.




(* ===================================================================== *)
(** ** Metadata and table of contents on disk *)
(* ===================================================================== *)

Section StoreFacts.
Context {yaml : Yaml}.
Local Open Scope py_scope.


(** Reading back an entry written by [save_metadata] gives the
    chapter's summary. *)
Lemma read_entry_toc_entry ch w :
  read_entry (toc_entry ch) w = (w, Ok (summary ch)).
Proof. destruct ch. reflexivity. Qed.

Lemma read_entries chapters acc w :
  for_each (map toc_entry chapters)
    (fun acc chapter => e <- read_entry chapter ;; ret (acc ++ [e])) acc w
  = (w, Ok (acc ++ map summary chapters)).
Proof.
  revert acc. induction chapters as [|ch chapters IH]; intros acc.
  - simpl. rewrite app_nil_r. reflexivity.
  - cbn [map for_each]. unfold bind at 1 2. rewrite read_entry_toc_entry.
    unfold ret at 1. rewrite IH, <- app_assoc. reflexivity.
Qed.

Lemma toc_chapters_toc chapters w :
  toc_chapters (PDict {[ "chapters" := PList (map toc_entry chapters) ]}) w
  = (w, Ok (map summary chapters)).
Proof.
  unfold toc_chapters, getitem. rewrite lookup_singleton_eq.
  unfold bind, ret, as_list. apply read_entries.
Qed.





End StoreFacts.



(* ===================================================================== *)
(** ** Further properties of the text normaliser *)
(* ===================================================================== *)

Section SqueezeFacts.

Lemma greedy_run cs s :
  greedy cs (match_len []) s = Some (length (take_while (in_cset cs) s)).
Proof.
  induction s as [|c s IH]; [reflexivity|]. cbn [greedy take_while].
  destruct (in_cset cs c); [|reflexivity]. rewrite IH. reflexivity.
Qed.

(** [re.sub] of [cs+] is [squeeze]. *)
Lemma sub_chars_plus cs repl s :
  sub_chars [(cs, Plus)] repl 0 s = squeeze (in_cset cs) repl false s
  /\ sub_chars [(cs, Plus)] repl (length (take_while (in_cset cs) s)) s
     = squeeze (in_cset cs) repl true s.
Proof.
  induction s as [|c s [IH0 IH1]]; [split; reflexivity|].
  cbn [sub_chars match_len take_while squeeze].
  destruct (in_cset cs c) eqn:Hc; cbn [length].
  - rewrite greedy_run. cbn [fmap option_fmap option_map]. rewrite IH1. auto.
  - rewrite IH0. auto.
Qed.

Lemma sub_plus cs repl s :
  sub [(cs, Plus)] repl s = str (squeeze (in_cset cs) (chars repl) false (chars s)).
Proof. unfold sub. rewrite (proj1 (sub_chars_plus _ _ _)). reflexivity. Qed.

End SqueezeFacts.

Section NormaliserFacts.


Lemma sub_whitespace text :
  sub re_whitespace " " text = str (squeeze isspace (chars " ") false (chars text)).
Proof. unfold re_whitespace. rewrite sub_plus. reflexivity. Qed.

(** After the whitespace collapse neither of the two later substitutions
    finds a match. *)
Lemma clean_text_closed text :
  _clean_text text = strip (sub re_whitespace " " text).
Proof.
  unfold _clean_text, re_page_number, re_paragraph_break.
  rewrite !sub_newline_pattern_after_collapse. reflexivity.
Qed.

(** *** Tokens *)

Lemma split_chars_collapse l :
  (forall cur, split_chars cur (squeeze isspace (chars " ") false l) = split_chars cur l)
  /\ split_chars [] (squeeze isspace (chars " ") true l) = split_chars [] l.
Proof.
  induction l as [|c l [IH0 IH1]]; [split; reflexivity|].
  cbn [squeeze split_chars]. destruct (isspace c) eqn:Hc.
  - split; [|exact IH1]. intros cur.
    change (chars " " ++ squeeze isspace (chars " ") true l) with (" "%char :: squeeze isspace (chars " ") true l).
    cbn [split_chars]. change (isspace " "%char) with true. cbv iota.
    rewrite IH1. reflexivity.
  - split; [intros cur|]; cbn [split_chars]; rewrite Hc; apply IH0.
Qed.

Lemma split_chars_lstrip l :
  split_chars [] (drop_while isspace l) = split_chars [] l.
Proof.
  induction l as [|c l IH]; [reflexivity|]. cbn [drop_while split_chars].
  destruct (isspace c) eqn:Hc; [exact IH|].
  cbn [split_chars]. rewrite Hc. reflexivity.
Qed.

Lemma split_chars_spaces cur ws :
  forallb isspace ws = true ->
  split_chars cur ws = match cur with [] => [] | _ => [rev cur] end.
Proof.
  revert cur. induction ws as [|c ws IH]; intros cur; [reflexivity|].
  cbn [forallb split_chars]. intros [Hc Hws]%andb_true_iff. rewrite Hc.
  rewrite (IH [] Hws). reflexivity.
Qed.

Lemma split_chars_trailing cur l ws :
  forallb isspace ws = true ->
  split_chars cur (l ++ ws) = split_chars cur l.
Proof.
  intros Hws. revert cur. induction l as [|c l IH]; intros cur.
  - apply split_chars_spaces. exact Hws.
  - cbn [app split_chars]. destruct (isspace c); destruct cur; rewrite ?IH; reflexivity.
Qed.

Lemma take_drop_while {A} (p : A -> bool) l :
  l = take_while p l ++ drop_while p l /\ forallb p (take_while p l) = true.
Proof.
  induction l as [|x l [IH1 IH2]]; [auto|]. cbn [take_while drop_while].
  destruct (p x) eqn:Hx; [|auto]. cbn [app forallb]. rewrite Hx, <- IH1. auto.
Qed.

Lemma forallb_rev {A} (p : A -> bool) l : forallb p (rev l) = forallb p l.
Proof.
  induction l as [|x l IH]; [reflexivity|]. cbn [rev forallb].
  rewrite forallb_app, IH. cbn. rewrite andb_true_r. apply andb_comm.
Qed.

(** What [rstrip] removes is whitespace at the end. *)
Lemma rstrip_decompose l :
  exists ws, l = rstrip_chars l ++ ws /\ forallb isspace ws = true.
Proof.
  unfold rstrip_chars.
  destruct (take_drop_while isspace (rev l)) as [Hl Hws].
  exists (rev (take_while isspace (rev l))). split.
  - rewrite <- rev_app_distr, <- Hl, rev_involutive. reflexivity.
  - rewrite forallb_rev. exact Hws.
Qed.

Lemma split_strip s : split (strip s) = split s.
Proof.
  unfold split, strip. rewrite chars_str. f_equal.
  destruct (rstrip_decompose (lstrip_chars (chars s))) as (ws & Hl & Hws).
  rewrite <- (split_chars_lstrip (chars s)). fold (lstrip_chars (chars s)).
  rewrite Hl at 2. rewrite split_chars_trailing by exact Hws. reflexivity.
Qed.

(** *** Shape *)

Lemma separated_squeeze f r b l :
  f r = true -> separated f r b (squeeze f [r] b l) = true.
Proof.
  intros Hr. revert b. induction l as [|c l IH]; intros b; [reflexivity|].
  cbn [squeeze]. destruct (f c) eqn:Hc.
  - destruct b; [apply IH|]. cbn [app separated].
    rewrite Hr, Ascii.eqb_refl, IH. reflexivity.
  - cbn [separated]. rewrite Hc. apply IH.
Qed.

Lemma separated_weaken f r b l :
  separated f r b l = true -> separated f r false l = true.
Proof.
  destruct l as [|c l]; [reflexivity|]. cbn [separated].
  destruct (f c); [|auto]. destruct b; [|auto].
  rewrite andb_false_r. discriminate.
Qed.

Lemma separated_drop_while f r b l :
  separated f r b l = true -> separated f r true (drop_while f l) = true.
Proof.
  revert b. induction l as [|c l IH]; intros b; [reflexivity|].
  cbn [separated drop_while]. destruct (f c) eqn:Hc.
  - intros [_ H]%andb_true_iff. apply (IH true H).
  - intros H. cbn [separated]. rewrite Hc. exact H.
Qed.

Lemma separated_prefix f r b l1 l2 :
  separated f r b (l1 ++ l2) = true -> separated f r b l1 = true.
Proof.
  revert b. induction l1 as [|c l1 IH]; intros b; [reflexivity|].
  cbn [app separated]. destruct (f c).
  - intros [H1 H2]%andb_true_iff. rewrite H1. apply (IH true H2).
  - apply IH.
Qed.

Lemma separated_fixed f r b l :
  separated f r b l = true -> squeeze f [r] b l = l.
Proof.
  revert b. induction l as [|c l IH]; intros b; [reflexivity|].
  cbn [separated squeeze]. destruct (f c).
  - intros [[Hc Hb]%andb_true_iff Hl]%andb_true_iff.
    apply Ascii.eqb_eq in Hc. subst c. destruct b; [discriminate|].
    rewrite (IH true Hl). reflexivity.
  - intros Hl. rewrite (IH false Hl). reflexivity.
Qed.

Lemma lstrip_fixed l :
  match l with c :: _ => isspace c = false | [] => True end ->
  lstrip_chars l = l.
Proof. destruct l as [|c l]; [reflexivity|]. intros H. unfold lstrip_chars. simpl. rewrite H. reflexivity. Qed.

Lemma lstrip_head l :
  match lstrip_chars l with c :: _ => isspace c = false | [] => True end.
Proof.
  unfold lstrip_chars. destruct (drop_while isspace l) as [|c t] eqn:H; [exact I|].
  eapply drop_while_head; eauto.
Qed.

Lemma rstrip_fixed l : ends_with_space l = false -> rstrip_chars l = l.
Proof.
  unfold ends_with_space, rstrip_chars. destruct (rev l) as [|c t] eqn:Hr.
  - intros _. apply (f_equal (@rev _)) in Hr. rewrite rev_involutive in Hr.
    subst l. reflexivity.
  - intros Hc. cbn [drop_while]. rewrite Hc, <- Hr. apply rev_involutive.
Qed.

Lemma rstrip_end l : ends_with_space (rstrip_chars l) = false.
Proof.
  unfold ends_with_space, rstrip_chars. rewrite rev_involutive.
  destruct (drop_while isspace (rev l)) as [|c t] eqn:H; [reflexivity|].
  eapply drop_while_head; eauto.
Qed.

(** [rstrip] keeps the first character of what it leaves. *)
Lemma rstrip_head l :
  match l with c :: _ => isspace c = false | [] => True end ->
  match rstrip_chars l with c :: _ => isspace c = false | [] => True end.
Proof.
  destruct (rstrip_decompose l) as (ws & Hl & _).
  destruct (rstrip_chars l) as [|c t]; [intros _; exact I|].
  rewrite Hl. cbn [app]. auto.
Qed.

(** The characters of a stripped, collapsed text. *)
Lemma clean_chars_shape text :
  let out := chars (_clean_text text) in
  separated isspace " "%char true out = true /\ ends_with_space out = false
  /\ match out with c :: _ => isspace c = false | [] => True end.
Proof.
  intros out. subst out. rewrite clean_text_closed, sub_whitespace.
  unfold strip. rewrite !chars_str.
  set (l := squeeze isspace (chars " ") false (chars text)).
  split; [|split].
  - destruct (rstrip_decompose (lstrip_chars l)) as (ws & Hl & _).
    apply (separated_prefix _ _ _ _ ws). rewrite <- Hl.
    apply (separated_drop_while _ _ false). apply separated_squeeze. reflexivity.
  - apply rstrip_end.
  - apply rstrip_head, lstrip_head.
Qed.

Lemma separated_at f r b l1 c l2 :
  separated f r b (l1 ++ c :: l2) = true -> f c = true ->
  c = r
  /\ (l1 = [] -> b = false)
  /\ (forall l1' a, l1 = l1' ++ [a] -> f a = false)
  /\ (forall d l2', l2 = d :: l2' -> f d = false).
Proof.
  revert b. induction l1 as [|x l1 IH]; intros b H Hc.
  - cbn [app separated] in H. rewrite Hc in H.
    apply andb_true_iff in H as [[Heq Hb]%andb_true_iff Hl].
    apply Ascii.eqb_eq in Heq. split; [exact Heq|]. split.
    + intros _. destruct b; [discriminate|reflexivity].
    + split; [intros [|? ?] ? ?; discriminate|].
      intros d l2' ->. cbn [separated] in Hl.
      destruct (f d); [|reflexivity]. rewrite andb_false_r in Hl. discriminate.
  - cbn [app separated] in H.
    assert (Hrest : exists b', separated f r b' (l1 ++ c :: l2) = true
                               /\ (b' = true <-> f x = true)).
    { destruct (f x) eqn:Hx.
      - apply andb_true_iff in H as [_ H]. exists true. tauto.
      - exists false. split; [exact H|]. split; discriminate. }
    destruct Hrest as (b' & Hb' & Hx).
    destruct (IH b' Hb' Hc) as (Heq & Hnil & Hlast & Hnext).
    split; [exact Heq|]. split; [discriminate|]. split; [|exact Hnext].
    intros l1' a Hl1. destruct l1' as [|y l1'].
    + injection Hl1 as -> ->. specialize (Hnil eq_refl).
      destruct (f a); [|reflexivity]. destruct b'; [discriminate|].
      destruct Hx as [_ Hx]. discriminate (Hx eq_refl).
    + injection Hl1 as _ ->. eapply Hlast. reflexivity.
Qed.

Lemma clean_text_empty_iff (text : string) :
  _clean_text text = "" <-> forallb isspace (chars text) = true.
Proof.
  assert (Hex : forall b l,
             existsb (fun c => negb (isspace c)) (squeeze isspace (chars " ") b l)
             = existsb (fun c => negb (isspace c)) l).
  { intros b l. revert b. induction l as [|c l IH]; intros b; [reflexivity|].
    cbn [squeeze existsb]. destruct (isspace c) eqn:Hc.
    - destruct b; cbn; rewrite ?IH; reflexivity.
    - cbn [existsb]. rewrite Hc, IH. reflexivity. }
  rewrite clean_text_closed, sub_whitespace.
  pose proof (truthy_strip (str (squeeze isspace (chars " ") false (chars text)))) as Ht.
  rewrite chars_str, Hex in Ht. rewrite forallb_existsb_negb.
  destruct (strip _) eqn:Hs; cbn [truthy] in Ht; rewrite <- Ht; split;
    try reflexivity; discriminate.
Qed.

Lemma split_clean_text (text : string) :
  split (_clean_text text) = split text.
Proof.
  rewrite clean_text_closed, split_strip, sub_whitespace.
  unfold split. rewrite chars_str.
  rewrite (proj1 (split_chars_collapse (chars text))). reflexivity.
Qed.

End NormaliserFacts.

(** X1. In a normalised text the only whitespace is the single space
    between two words: every whitespace character of the result is a
    space whose neighbours on both sides exist and are not whitespace.
    So there is no newline, no tab, no run of spaces and no space at
    either end. *)
Theorem clean_text_single_spaced (text : string) (l1 l2 : list ascii) (c : ascii) :
  chars (_clean_text text) = l1 ++ c :: l2 ->
  isspace c = true ->
  c = " "%char
  /\ (exists l1' a, l1 = l1' ++ [a] /\ isspace a = false)
  /\ (exists b l2', l2 = b :: l2' /\ isspace b = false).
Proof.
  intros Hout Hc.
  destruct (clean_chars_shape text) as (Hss & Hend & _). cbv zeta in *.
  rewrite Hout in Hss, Hend.
  destruct (separated_at _ _ _ _ _ _ Hss Hc) as (Heq & Hnil & Hlast & Hnext).
  split; [exact Heq|]. split.
  - destruct l1 as [|x l1] using rev_ind; [discriminate (Hnil eq_refl)|].
    exists l1, x. split; [reflexivity|]. eapply Hlast. reflexivity.
  - destruct l2 as [|d l2].
    + unfold ends_with_space in Hend. rewrite rev_app_distr in Hend.
      cbn in Hend. congruence.
    + exists d, l2. split; [reflexivity|]. eapply Hnext. reflexivity.
Qed.

Lemma clean_text_single_spaced_witness :
  " "%char = " "%char
  /\ (exists l1' a, ["a"%char] = l1' ++ [a] /\ isspace a = false)
  /\ (exists b l2', ["b"%char] = b :: l2' /\ isspace b = false).
Proof.
  apply (clean_text_single_spaced (" a " +:+ newline +:+ " b ")
           ["a"%char] ["b"%char] " "%char); reflexivity.
Defined.

(** X2. Normalising is idempotent: a normalised text is left as it is. *)
Theorem clean_text_idempotent (text : string) :
  _clean_text (_clean_text text) = _clean_text text.
Proof.
  destruct (clean_chars_shape text) as (Hss & Hend & Hhead). cbv zeta in *.
  rewrite (clean_text_closed (_clean_text text)), sub_whitespace.
  rewrite (separated_fixed isspace " "%char false)
    by (eapply separated_weaken; eauto).
  unfold strip. rewrite chars_str.
  rewrite (lstrip_fixed _ Hhead), (rstrip_fixed _ Hend). apply str_chars.
Qed.

(** X3. The normalised text is empty exactly when the raw text has no
    character that is not whitespace. *)
Theorem clean_text_empty_iff_blank (text : string) :
  _clean_text text = "" <-> forallb isspace (chars text) = true.
Proof. apply clean_text_empty_iff. Qed.

(** X4. Normalising keeps the words: the whitespace-separated tokens of
    the normalised text are those of the raw text, in order. *)
Theorem clean_text_keeps_tokens (text : string) :
  split (_clean_text text) = split text.
Proof. apply split_clean_text. Qed.

(* ===================================================================== *)
(** ** Further properties of chapter extraction *)
(* ===================================================================== *)

Section ChapterFacts.

Lemma split_chars_nil cur l :
  split_chars cur l = [] -> cur = [] /\ forallb isspace l = true.
Proof.
  revert cur. induction l as [|c l IH]; intros cur; cbn [split_chars forallb].
  - destruct cur; [auto|discriminate].
  - destruct (isspace c).
    + destruct cur; [|discriminate]. intros H. destruct (IH [] H). auto.
    + intros H. destruct (IH _ H) as [Hcur _]. discriminate.
Qed.

(** A text with a character that is not whitespace has a token. *)
Lemma split_nonblank s :
  existsb (fun c => negb (isspace c)) (chars s) = true -> split s <> [].
Proof.
  intros Hex Hs. unfold split in Hs. apply map_eq_nil in Hs.
  apply split_chars_nil in Hs as [_ Hall].
  rewrite forallb_existsb_negb, Hex in Hall. discriminate.
Qed.

(** Every extracted chapter comes from a unit that counts. *)
Lemma extracted_from_unit items ch :
  ch ∈ extract_chapters items ->
  exists item, item ∈ items /\ is_chapter_unit item = true
               /\ ch = chapter_of (number ch) item.
Proof.
  rewrite extract_chapters_closed.
  intros (i & item & -> & Hi)%elem_of_lookup_imap.
  exists item. assert (Hin : In item (List.filter is_chapter_unit items)).
  { apply list_elem_of_In, list_elem_of_lookup. eauto. }
  apply filter_In in Hin as [Hin Hu].
  split; [apply list_elem_of_In; exact Hin|]. split; [exact Hu|reflexivity].
Qed.

End ChapterFacts.

(** X5. Every extracted chapter comes from a document unit of the EPUB
    with extractable text; its content is the normalised text of that
    unit and is not empty; and its word count, taken on the raw text, is
    positive and is also the number of whitespace-separated tokens of
    the content. *)
Theorem extracted_chapter_content (book : Book) (ch : Chapter) :
  ch ∈ snd (extract_epub_content book) ->
  exists item,
    item ∈ get_items book
    /\ get_type item = ITEM_DOCUMENT
    /\ content ch = _clean_text (get_text item)
    /\ content ch <> ""
    /\ word_count ch = Z.of_nat (length (split (get_text item)))
    /\ word_count ch = Z.of_nat (length (split (content ch)))
    /\ (0 < word_count ch)%Z.
Proof.
  cbn [extract_epub_content snd].
  intros (item & Hin & Hu & Hch)%extracted_from_unit.
  exists item. apply andb_true_iff in Hu as [Hty Htext].
  apply Z.eqb_eq in Hty. unfold has_text in Htext.
  rewrite Hch. cbn [content word_count chapter_of].
  rewrite split_clean_text.
  repeat split; try assumption.
  - intros Hempty%clean_text_empty_iff.
    rewrite forallb_existsb_negb, Htext in Hempty. discriminate.
  - pose proof (split_nonblank _ Htext) as Hne.
    destruct (split (get_text item)); [congruence|]. cbn [length]. lia.
Qed.

Lemma extracted_chapter_content_witness :
  exists item,
    item ∈ [unit_with_heading "One"; unit_without_heading]
    /\ word_count (chapter_of 2 unit_without_heading)
       = Z.of_nat (length (split (content (chapter_of 2 unit_without_heading)))).
Proof.
  destruct (extracted_chapter_content
              (mkBook (fun _ => []) [unit_with_heading "One"; unit_without_heading])
              (chapter_of 2 unit_without_heading))
    as (item & Hin & _ & _ & _ & _ & Hwc & _).
  - cbn [extract_epub_content snd get_items]. rewrite extract_chapters_closed.
    apply elem_of_lookup_imap. exists 1, unit_without_heading.
    split; reflexivity.
  - exists item. split; [exact Hin|exact Hwc].
Defined.

Section SlugFacts.








End SlugFacts.


Section DefaultNameFacts.

Lemma str_app l1 l2 : str (l1 ++ l2) = str l1 +:+ str l2.
Proof.
  induction l1 as [|c l1 IH]; [reflexivity|].
  change (String c (str (l1 ++ l2)) = String c (str l1 +:+ str l2)).
  rewrite IH. reflexivity.
Qed.

Lemma squeeze_keep f repl b l1 l :
  forallb (fun c => negb (f c)) l1 = true ->
  squeeze f repl b (l1 ++ l) = l1 ++ squeeze f repl false l
  \/ (l1 = [] /\ b = true).
Proof.
  destruct l1 as [|c l1]; [destruct b; [right; auto|left; reflexivity]|].
  intros H. left. revert b c H. induction l1 as [|d l1 IH]; intros b c H.
  - cbn in H. cbn [app squeeze]. destruct (f c); [discriminate|reflexivity].
  - cbn [forallb] in H. apply andb_true_iff in H as [Hc H].
    cbn [app squeeze]. destruct (f c); [discriminate|].
    f_equal. apply (IH false d H).
Qed.

Lemma squeeze_none f repl b l :
  forallb (fun c => negb (f c)) l = true -> squeeze f repl b l = l.
Proof.
  revert b. induction l as [|c l IH]; intros b; [reflexivity|].
  cbn [forallb squeeze]. intros [Hc H]%andb_true_iff.
  destruct (f c); [discriminate|]. rewrite IH by exact H. reflexivity.
Qed.

Lemma digit_facts c :
  isdecimal c = true ->
  in_cset (Compl (Union Word (Union Space (Lit hyphen)))) c = false
  /\ in_cset (Union (Lit hyphen) Space) c = false
  /\ lower_char c = c.
Proof.
  destruct c as [b0 b1 b2 b3 b4 b5 b6 b7].
  destruct b0, b1, b2, b3, b4, b5, b6, b7; vm_compute; intros H;
    first [discriminate H | auto].
Qed.

Lemma digits_of_decimal n : forallb isdecimal (chars (digits_of n)) = true.
Proof.
  apply forallb_forall. intros c Hc.
  pose proof (string_of_uint_decimal (N.to_uint n)) as H.
  rewrite Forall_forall in H. apply H, list_elem_of_In, Hc.
Qed.

End DefaultNameFacts.

(** X7. A chapter that carries the default title ["Chapter N"] (its unit
    had no heading element) is named [NN-chapter-N]: the number padded
    to two digits, then ["-chapter-"], then the number. *)
Theorem default_title_filename (book : Book) (ch : Chapter) :
  ch ∈ snd (extract_epub_content book) ->
  title ch = "Chapter " +:+ str_of_int (number ch) ->
  filename ch
  = format_0d 2 (number ch) +:+ "-chapter-" +:+ str_of_int (number ch).
Proof.
  cbn [extract_epub_content snd].
  intros [Hn Hf]%extracted_chapter Ht. rewrite Hf, Ht.
  unfold chapter_filename, str_of_int.
  destruct (Z.ltb_spec (number ch) 0) as [?|_]; [lia|].
  set (d := digits_of (Z.to_N (number ch))).
  assert (Hd : forallb isdecimal (chars d) = true) by apply digits_of_decimal.
  rewrite forallb_forall in Hd.
  assert (H1 : sub re_not_slug_char "" ("Chapter " +:+ d) = "Chapter " +:+ d).
  { unfold sub. rewrite sub_chars_no_match; [apply str_chars|].
    rewrite chars_append. apply Forall_app. split.
    - repeat constructor; intros s'; reflexivity.
    - apply Forall_forall. intros c Hc%list_elem_of_In s'.
      apply match_len_first_fails; [discriminate|].
      apply digit_facts, Hd, Hc. }
  assert (H2 : sub re_separators "-" ("Chapter " +:+ d) = "Chapter-" +:+ d).
  { unfold re_separators. rewrite sub_plus, chars_append.
    change (chars "Chapter ") with (chars "Chapter" ++ [" "%char]).
    rewrite <- app_assoc.
    destruct (squeeze_keep (in_cset (Union (Lit hyphen) Space)) (chars "-") false
                (chars "Chapter") ([" "%char] ++ chars d) eq_refl) as [->|[? _]];
      [|discriminate].
    cbn [app squeeze]. change (in_cset (Union (Lit hyphen) Space) " "%char) with true.
    cbv iota. rewrite squeeze_none.
    - change (chars "Chapter" ++ chars "-" ++ chars d)
        with (chars "Chapter-" ++ chars d).
      rewrite str_app, !str_chars. reflexivity.
    - apply forallb_forall. intros c Hc.
      rewrite (proj1 (proj2 (digit_facts c (Hd c Hc)))). reflexivity. }
  rewrite H1, H2. unfold lower. rewrite chars_append, map_app, str_app.
  change (str (map lower_char (chars "Chapter-"))) with "chapter-".
  replace (map lower_char (chars d)) with (chars d).
  - rewrite str_chars. reflexivity.
  - rewrite <- (map_id (chars d)) at 1. apply map_ext_in.
    intros c Hc. symmetry. apply digit_facts, Hd, Hc.
Qed.

Lemma default_title_filename_witness :
  filename (chapter_of 2 unit_without_heading) = "02-chapter-2".
Proof.
  apply (default_title_filename
           (mkBook (fun _ => []) [unit_with_heading "One"; unit_without_heading])).
  - cbn [extract_epub_content snd get_items]. rewrite extract_chapters_closed.
    apply elem_of_lookup_imap. exists 1, unit_without_heading. split; reflexivity.
  - reflexivity.
Defined.

Section HyphenFacts.

Lemma lower_char_hyphen c : lower_char c = hyphen -> c = hyphen.
Proof.
  destruct c as [b0 b1 b2 b3 b4 b5 b6 b7].
  destruct b0, b1, b2, b3, b4, b5, b6, b7; vm_compute; intros H;
    first [reflexivity | discriminate H].
Qed.

Lemma map_eq_app_cons2 {A B} (f : A -> B) l k1 a b k2 :
  map f l = k1 ++ a :: b :: k2 ->
  exists l1 x y l2, l = l1 ++ x :: y :: l2 /\ f x = a /\ f y = b.
Proof.
  revert l. induction k1 as [|c k1 IH]; intros l H.
  - destruct l as [|x [|y l2]]; try discriminate. injection H as Hx Hy _.
    exists [], x, y, l2. auto.
  - destruct l as [|z l]; [discriminate|]. injection H as _ H.
    destruct (IH l H) as (l1 & x & y & l2 & -> & Hx & Hy).
    exists (z :: l1), x, y, l2. auto.
Qed.

End HyphenFacts.

(** X8. In a chapter's file name, what follows the number and its hyphen
    never contains two hyphens in a row: each run of spaces and hyphens
    of the title becomes one hyphen. *)
Theorem chapter_filename_single_hyphens (chapter_num : Z) (title : string) :
  exists slug,
    chapter_filename chapter_num title = format_0d 2 chapter_num +:+ "-" +:+ slug
    /\ forall l1 l2, chars slug <> l1 ++ hyphen :: hyphen :: l2.
Proof.
  eexists. split; [reflexivity|]. intros l1 l2 H.
  unfold lower, re_separators in H. rewrite chars_str, sub_plus, chars_str in H.
  apply map_eq_app_cons2 in H as (k1 & x & y & k2 & Hk & Hx & Hy).
  apply lower_char_hyphen in Hx, Hy. subst x y.
  pose proof (separated_squeeze (in_cset (Union (Lit hyphen) Space)) hyphen false
                (chars (sub re_not_slug_char "" title)) eq_refl) as Hsep.
  change (chars "-") with [hyphen] in Hk. rewrite Hk in Hsep.
  destruct (separated_at _ _ _ _ _ _ Hsep eq_refl) as (_ & _ & _ & Hnext).
  discriminate (Hnext hyphen k2 eq_refl).
Qed.

(* ===================================================================== *)
(** ** Further properties of the saved book *)
(* ===================================================================== *)

Section ChapterFiles.
Local Open Scope py_scope.

(** A run of digits followed by a hyphen is read back unambiguously. *)
Lemma digits_hyphen_inj (d1 d2 r1 r2 : list ascii) :
  Forall (fun c => isdecimal c = true) d1 ->
  Forall (fun c => isdecimal c = true) d2 ->
  d1 ++ "-"%char :: r1 = d2 ++ "-"%char :: r2 -> d1 = d2.
Proof.
  intros H1. revert d2. induction H1 as [|c d1 Hc _ IH]; intros d2 H2 Heq.
  - destruct H2 as [|c' d2 Hc' _]; [reflexivity|].
    simpl in Heq. injection Heq as <- _. discriminate Hc'.
  - destruct H2 as [|c' d2 Hc' H2].
    + simpl in Heq. injection Heq as -> _. discriminate Hc.
    + simpl in Heq. injection Heq as <- Heq. f_equal. exact (IH _ H2 Heq).
Qed.

Lemma chapter_filename_inj n1 n2 title1 title2 :
  (0 <= n1)%Z -> (0 <= n2)%Z ->
  chapter_filename n1 title1 = chapter_filename n2 title2 -> n1 = n2.
Proof.
  intros Hn1 Hn2 Heq. unfold chapter_filename in Heq.
  apply (f_equal chars) in Heq. rewrite !chars_append in Heq.
  apply digits_hyphen_inj in Heq;
    [|apply format_02d_digits; assumption|apply format_02d_digits; assumption].
  apply (format_0d_inj 2); [assumption..|].
  rewrite <- (str_chars (format_0d 2 n1)), <- (str_chars (format_0d 2 n2)), Heq.
  reflexivity.
Qed.

Lemma extracted_filenames_NoDup items :
  NoDup (map filename (extract_chapters items)).
Proof.
  assert (Hnum : NoDup (map number (extract_chapters items))).
  { rewrite extract_chapters_closed, imap_number_seqZ. apply NoDup_seqZ. }
  assert (Hall : Forall (fun ch => (1 <= number ch)%Z
                          /\ filename ch = chapter_filename (number ch) (title ch))
                   (extract_chapters items)).
  { apply Forall_forall. intros ch Hch. exact (extracted_chapter items ch Hch). }
  induction Hall as [|ch chs [Hge Hname] Hall IH]; [constructor|].
  cbn [map] in *. apply NoDup_cons in Hnum as [Hnotin Hnum].
  apply NoDup_cons. split; [|exact (IH Hnum)].
  intros (ch' & Heq & Hin)%list_elem_of_fmap. apply Hnotin.
  apply list_elem_of_fmap. exists ch'. split; [|exact Hin].
  rewrite Forall_forall in Hall. destruct (Hall _ Hin) as [Hge' Hname'].
  rewrite Hname, Hname' in Heq. apply chapter_filename_inj in Heq; [exact Heq|lia..].
Qed.



End ChapterFiles.

(** X9. No two chapters extracted from a book get the same file name,
    whatever their titles: the zero-padded chapter number that prefixes
    the name tells them apart. *)
Theorem extracted_filenames_distinct (book : Book) :
  NoDup (map filename (snd (extract_epub_content book))).
Proof. apply extracted_filenames_NoDup. Qed.


(* ===================================================================== *)
(** ** Further properties of speech generation *)
(* ===================================================================== *)

Section SpeechMore.
Context {ext : Externals}.
Local Open Scope py_scope.

(** [generate_speech] for either value of [save_files]. *)
Lemma generate_speech_any self text voice filename_prefix save_files
      combine_segments w :
  let em := pipeline (outside w) text voice in
  generate_speech self text voice filename_prefix save_files combine_segments w
  = match failure em with
    | Some e =>
        (mkWorld (fs w) (console w ++ [GeneratingSpeech voice])
                 (clock w + took em), Raise e)
    | None =>
        if save_files then
          (mkWorld
             (expected_disk self filename_prefix combine_segments (emitted em) (fs w))
             (console w ++ GeneratingSpeech voice
                :: speech_messages self filename_prefix combine_segments (emitted em))
             (clock w + took em),
           Ok (expected_files self filename_prefix combine_segments (emitted em)))
        else
          (mkWorld (fs w)
             (console w ++ GeneratingSpeech voice
                :: segment_messages self filename_prefix
                     (Z.of_nat (length (emitted em))) false (enumerate (emitted em)))
             (clock w + took em), Ok [])
    end.
Proof.
  intros em. destruct save_files.
  { pose proof (generate_speech_run self text voice filename_prefix
                  combine_segments w) as H. cbv zeta in H. fold em in H.
    rewrite H. destruct (failure em); reflexivity. }
  unfold generate_speech.
  rewrite (bind_ok _ _ _ _ _ (print_spec _ w)).
  unfold list_generator at 1, bind at 1. unfold outside. cbn [fs clock elapse console].
  fold (outside w). fold em.
  destruct (failure em) as [e|]; [reflexivity|].
  unfold bind at 1. rewrite segments_loop. cbn [fs clock console andb app elapse].
  unfold ret. rewrite <- app_assoc. reflexivity.
Qed.

Lemma expected_disk_other self filename_prefix combine_segments segs disk p :
  p ∉ expected_files self filename_prefix combine_segments segs ->
  expected_disk self filename_prefix combine_segments segs disk !! p = disk !! p.
Proof.
  unfold expected_files, expected_disk. destruct combine_segments.
  - destruct segs as [|seg segs]; [reflexivity|]. intros Hp.
    apply lookup_insert_ne. intros <-. apply Hp. apply list_elem_of_here.
  - rewrite <- (enumerate_fst segs), <- list_fmap_compose.
    generalize (enumerate segs). intros l. revert disk.
    induction l as [|[i seg] l IH]; intros disk Hp; [reflexivity|].
    cbn [fold_left fst snd]. rewrite IH.
    + apply lookup_insert_ne. intros <-. apply Hp. apply list_elem_of_here.
    + intros Hin. apply Hp. apply list_elem_of_further. exact Hin.
Qed.



Lemma combined_not_segment self filename_prefix (segs : list Segment) :
  combined_filename self filename_prefix
  ∉ expected_files self filename_prefix false segs.
Proof.
  unfold expected_files. intros (i & Heq & _)%list_elem_of_fmap.
  unfold combined_filename, segment_filename, joinpath in Heq.
  apply app_inv_head in Heq. injection Heq as Heq.
  apply append_inv_head in Heq. discriminate Heq.
Qed.

End SpeechMore.

(** X11. [generate_speech] leaves every file but its own as it was: after
    a call that saves files, a path that is not among the returned ones
    has the content it had before.  What was at a returned path is
    overwritten. *)
Theorem generate_speech_other_files `{ext : Externals} (self : TTSManager)
    (text voice filename_prefix : string) (combine_segments : bool)
    (w : World) (p : path) :
  let em := pipeline (outside w) text voice in
  failure em = None ->
  p ∉ expected_files self filename_prefix combine_segments (emitted em) ->
  fs (fst (generate_speech self text voice filename_prefix true combine_segments w))
  !! p = fs w !! p.
Proof.
  intros em Hok Hp.
  pose proof (generate_speech_any self text voice filename_prefix true
                combine_segments w) as H. cbv zeta in H. fold em in H.
  rewrite Hok in H. rewrite H. cbn [fst fs]. apply expected_disk_other, Hp.
Qed.

Lemma generate_speech_other_files_witness :
  fs (fst (generate_speech (ext := scripted_engine) book_tts "# One" "af_heart"
             "01-one" true true book_world))
  !! ["books"; "b"; "content"; "chapters"; "01-one.md"]
  = fs book_world !! ["books"; "b"; "content"; "chapters"; "01-one.md"].
Proof.
  apply (generate_speech_other_files (ext := scripted_engine) book_tts "# One"
           "af_heart" "01-one" true book_world); [reflexivity|].
  vm_compute. intros H. apply list_elem_of_In in H. simpl in H.
  destruct H as [H|[]]. discriminate H.
Defined.





(** X14. Without [combine_segments], [generate_speech] does not write the
    file [{filename_prefix}.wav]: the per-segment files have other names.
    That is the file [list_chapters] looks for, so audio generated for a
    chapter without combining does not show in the listing. *)
Theorem generate_speech_uncombined_not_listed `{ext : Externals} (self : TTSManager)
    (text voice filename_prefix : string) (w : World) :
  fs (fst (generate_speech self text voice filename_prefix true false w))
  !! joinpath (output_dir self) (filename_prefix +:+ ".wav")
  = fs w !! joinpath (output_dir self) (filename_prefix +:+ ".wav").
Proof.
  pose proof (generate_speech_any self text voice filename_prefix true false w) as H.
  cbv zeta in H. rewrite H.
  destruct (failure (pipeline (outside w) text voice)); [reflexivity|].
  cbn [fst fs]. apply expected_disk_other, combined_not_segment.
Qed.

(* ===================================================================== *)
(** ** Further properties of the listing and of audio generation *)
(* ===================================================================== *)

Section ReadOnly.
Local Open Scope py_scope.

Lemma read_only_ret {A} (a : A) : read_only (ret a).
Proof. intros w. auto. Qed.

Lemma read_only_raise {A} e : read_only (@raise A e).
Proof. intros w. auto. Qed.

Lemma read_only_lift {A} (r : result A) : read_only (lift r).
Proof. intros w. auto. Qed.

Lemma read_only_print m : read_only (print m).
Proof. intros w. auto. Qed.

Lemma read_only_exists p : read_only (exists_ p).
Proof. intros w. auto. Qed.

Lemma read_only_read_text p : read_only (read_text p).
Proof. intros w. unfold read_text. destruct (fs w !! p) as [[| |]|]; auto. Qed.

Lemma read_only_bind {A B} (m : Py A) (k : A -> Py B) :
  read_only m -> (forall a, read_only (k a)) -> read_only (Effects.bind m k).
Proof.
  intros Hm Hk w. unfold Effects.bind. specialize (Hm w).
  destruct (m w) as [w1 [a|e]]; cbn [fst] in *; [|exact Hm].
  destruct (Hk a w1) as [Hfs Hclk]. destruct Hm as [Hfs1 Hclk1].
  split; congruence.
Qed.

Lemma read_only_for_each {A S} (l : list A) (body : S -> A -> Py S) s :
  (forall s x, read_only (body s x)) -> read_only (for_each l body s).
Proof.
  intros Hbody. revert s. induction l as [|x l IH]; intros s; cbn [for_each].
  - apply read_only_ret.
  - apply read_only_bind; [apply Hbody|exact IH].
Qed.

Lemma read_only_getitem d key : read_only (getitem d key).
Proof.
  unfold getitem. destruct d; try apply read_only_raise.
  destruct (_ !! _); [apply read_only_ret|apply read_only_raise].
Qed.

Lemma read_only_as_int v : read_only (as_int v).
Proof. destruct v; first [apply read_only_ret|apply read_only_raise]. Qed.

Lemma read_only_as_str v : read_only (as_str v).
Proof. destruct v; first [apply read_only_ret|apply read_only_raise]. Qed.

Lemma read_only_as_list v : read_only (as_list v).
Proof. destruct v; first [apply read_only_ret|apply read_only_raise]. Qed.

Lemma read_only_read_entry chapter : read_only (read_entry chapter).
Proof.
  unfold read_entry.
  repeat first [ apply read_only_bind; [|intros ?]
               | apply read_only_getitem | apply read_only_as_int
               | apply read_only_as_str | apply read_only_ret ].
Qed.

Lemma read_only_toc_chapters toc : read_only (toc_chapters toc).
Proof.
  unfold toc_chapters.
  apply read_only_bind; [|intros chapters].
  - apply read_only_bind; [apply read_only_getitem|intros ?; apply read_only_as_list].
  - apply read_only_for_each. intros acc chapter.
    apply read_only_bind; [apply read_only_read_entry|intros ?; apply read_only_ret].
Qed.

Lemma read_only_load_yaml `{yaml : Yaml} p : read_only (load_yaml p).
Proof.
  unfold load_yaml.
  apply read_only_bind; [apply read_only_read_text|intros ?; apply read_only_lift].
Qed.

Lemma read_only_list_chapters `{yaml : Yaml} book_path show_audio :
  read_only (list_chapters book_path show_audio).
Proof.
  unfold list_chapters.
  apply read_only_bind; [apply read_only_exists|intros found].
  destruct found; cbn [negb];
    [|apply read_only_bind; [apply read_only_print|intros ?; apply read_only_raise]].
  apply read_only_bind; [apply read_only_exists|intros found].
  destruct found; cbn [negb];
    [|apply read_only_bind; [apply read_only_print|intros ?; apply read_only_raise]].
  apply read_only_bind; [apply read_only_load_yaml|intros toc].
  apply read_only_bind; [apply read_only_load_yaml|intros metadata].
  apply read_only_bind; [|intros t].
  { apply read_only_bind; [apply read_only_getitem|intros ?; apply read_only_as_str]. }
  apply read_only_bind; [|intros a].
  { apply read_only_bind; [apply read_only_getitem|intros ?; apply read_only_as_str]. }
  apply read_only_bind; [apply read_only_print|intros _].
  apply read_only_bind; [apply read_only_toc_chapters|intros chapters].
  apply read_only_bind; [|intros rows].
  { apply read_only_for_each. intros rows chapter.
    apply read_only_bind; [|intros ?; apply read_only_ret].
    destruct show_audio; [|apply read_only_ret].
    apply read_only_bind; [apply read_only_exists|intros ?; apply read_only_ret]. }
  apply read_only_bind; [apply read_only_print|intros _; apply read_only_ret].
Qed.

End ReadOnly.

Section AudioFacts.
Context {yaml : Yaml} {ext : Externals}.
Local Open Scope py_scope.


Lemma exists_dir (p : path) (w : World) :
  is_dir w p = true -> exists_ p w = (w, Ok true).
Proof. intros Hd. unfold exists_. rewrite Hd. reflexivity. Qed.

Lemma exists_entry (p : path) (w : World) f :
  fs w !! p = Some f -> exists_ p w = (w, Ok true).
Proof.
  intros Hf. unfold exists_. rewrite Hf, bool_decide_eq_true_2 by eauto.
  rewrite orb_true_r. reflexivity.
Qed.


Lemma joinpath_nonempty (p : path) name : joinpath p name <> [].
Proof. unfold joinpath. destruct p; discriminate. Qed.

Lemma load_yaml_text p s w :
  fs w !! p = Some (Text s) -> load_yaml p w = (w, safe_load s).
Proof.
  intros Hfile. unfold load_yaml, Effects.bind, read_text, lift. rewrite Hfile.
  reflexivity.
Qed.

Lemma load_yaml_missing p w :
  fs w !! p = None -> load_yaml p w = (w, Raise (Error "FileNotFoundError")).
Proof.
  intros Hfile. unfold load_yaml, Effects.bind, read_text. rewrite Hfile.
  reflexivity.
Qed.

(** The dict comprehension over the table of contents knows exactly the
    numbers of its entries. *)
Lemma chapters_dict_None (entries : list Summary) (d : gmap Z Summary) (n : Z) :
  fold_left (fun d ch => <[s_number ch := ch]> d) entries d !! n = None
  <-> d !! n = None /\ n ∉ map s_number entries.
Proof.
  revert d. induction entries as [|e entries IH]; intros d; cbn [fold_left map].
  - split; [intros H; split; [exact H|apply not_elem_of_nil]|tauto].
  - rewrite IH, not_elem_of_cons. destruct (decide (s_number e = n)) as [<-|Hne].
    + rewrite lookup_insert_eq. split; [intros [[=] _]|intros [_ [[] _]]; reflexivity].
    + rewrite lookup_insert_ne by exact Hne. split; intros H; intuition congruence.
Qed.

Lemma invalid_chapters_spec (entries : list Summary) (chapters : list Z) :
  filter (fun ch =>
            fold_left (fun d ch => <[s_number ch := ch]> d) entries
              (∅ : gmap Z Summary) !! ch = None) chapters
  = filter (fun ch => ch ∉ map s_number entries) chapters.
Proof.
  apply list_filter_iff. intros n. rewrite chapters_dict_None, lookup_empty. tauto.
Qed.

(** [generate_audio] up to the validation of the chapter numbers. *)
Lemma generate_audio_validation book_path chapters voice model combine w s toc
      entries :
  is_dir w book_path = true ->
  fs w !! joinpath book_path "toc.yml" = Some (Text s) ->
  safe_load s = Ok toc ->
  toc_chapters toc w = (w, Ok entries) ->
  generate_audio book_path chapters voice model combine w
  = match filter (fun ch => ch ∉ map s_number entries) chapters with
    | (_ :: _) as invalid_chapters =>
        (mkWorld (fs w) (console w ++ [InvalidChapters invalid_chapters]) (clock w),
         Raise (Exit 1))
    | [] =>
        (tts_manager <- TTSManager_init "a"
           (joinpath (joinpath (joinpath book_path "audio") model) "chapters") ;;
         print (GeneratingAudio (Z.of_nat (length chapters)) voice) ;;
         generate_chapters book_path tts_manager
           (fold_left (fun d ch => <[s_number ch := ch]> d) entries ∅)
           voice combine chapters) w
    end.
Proof.
  intros Hdir Hfile Hload Hentries. unfold generate_audio.
  rewrite (bind_ok _ _ _ _ _ (exists_dir _ _ Hdir)). cbn [negb].
  rewrite (bind_ok _ _ _ _ toc (eq_trans (load_yaml_text _ _ _ Hfile)
                                          (f_equal (pair w) Hload))).
  rewrite (bind_ok _ _ _ _ _ Hentries). rewrite invalid_chapters_spec.
  destruct (filter _ chapters); reflexivity.
Qed.

Lemma init_missing_parent (lang_code : string) (output_dir : path) (w : World) :
  fs w !! output_dir = None ->
  output_dir <> [] ->
  fs w !! path_parent output_dir = None ->
  path_parent output_dir <> [] ->
  TTSManager_init lang_code output_dir w = (w, Raise (Error "FileNotFoundError")).
Proof.
  intros Hp Hne Hpar Hparne.
  unfold TTSManager_init, create_audio_directory, Effects.bind, mkdir_exist_ok.
  assert (Hd : forall q : path, q <> [] -> fs w !! q = None -> is_dir w q = false).
  { intros [|a q] Hq Hnone; [congruence|]. unfold is_dir. rewrite Hnone. reflexivity. }
  rewrite (Hd _ Hne Hp), Hp, (Hd _ Hparne Hpar). reflexivity.
Qed.

Lemma path_parent_joinpath (p : path) name : path_parent (joinpath p name) = p.
Proof. unfold path_parent, joinpath. apply removelast_last. Qed.

End AudioFacts.

(** X15. [list_chapters] only reads: whether it returns, exits or fails
    on a malformed file, the files and the clock are as before. *)
Theorem list_chapters_read_only `{yaml : Yaml} (book_path : path)
    (show_audio : bool) (w : World) :
  fs (fst (list_chapters book_path show_audio w)) = fs w
  /\ clock (fst (list_chapters book_path show_audio w)) = clock w.
Proof. apply read_only_list_chapters. Qed.



(** X17. [list_chapters] checks for [toc.yml] but not for [metadata.yml]:
    with a table of contents that loads and no metadata file it raises
    [FileNotFoundError], having printed nothing. *)
Theorem list_chapters_without_metadata `{yaml : Yaml} (book_path : path)
    (show_audio : bool) (w : World) (s : string) (toc : pyval) :
  is_dir w book_path = true ->
  fs w !! joinpath book_path "toc.yml" = Some (Text s) ->
  safe_load s = Ok toc ->
  fs w !! joinpath book_path "metadata.yml" = None ->
  list_chapters book_path show_audio w = (w, Raise (Error "FileNotFoundError")).
Proof.
  intros Hdir Htoc Hload Hmeta. unfold list_chapters.
  rewrite (bind_ok _ _ _ _ _ (exists_dir _ _ Hdir)). cbn [negb].
  rewrite (bind_ok _ _ _ _ _ (exists_entry _ _ _ Htoc)). cbn [negb].
  rewrite (bind_ok _ _ _ _ toc (eq_trans (load_yaml_text _ _ _ Htoc)
                                          (f_equal (pair w) Hload))).
  rewrite (bind_raise _ _ _ _ _ (load_yaml_missing _ _ Hmeta)). reflexivity.
Qed.

Lemma list_chapters_without_metadata_witness :
  list_chapters (yaml := netstring_yaml) ["books"; "a-book"] true toc_only_world
  = (toc_only_world, Raise (Error "FileNotFoundError")).
Proof.
  apply (list_chapters_without_metadata (yaml := netstring_yaml) ["books"; "a-book"]
           true toc_only_world
           (dump (Yaml := netstring_yaml)
              (PDict {[ "chapters" := PList (map toc_entry sample_chapters) ]}))
           (PDict {[ "chapters" := PList (map toc_entry sample_chapters) ]}));
    vm_compute; reflexivity.
Defined.

(** X18. [generate_audio] does not check for [toc.yml]: in a book
    directory without one it raises [FileNotFoundError], having printed
    nothing. *)
Theorem generate_audio_without_toc `{yaml : Yaml} `{ext : Externals}
    (book_path : path) (chapters : list Z) (voice model : string) (combine : bool)
    (w : World) :
  is_dir w book_path = true ->
  fs w !! joinpath book_path "toc.yml" = None ->
  generate_audio book_path chapters voice model combine w
  = (w, Raise (Error "FileNotFoundError")).
Proof.
  intros Hdir Htoc. unfold generate_audio.
  rewrite (bind_ok _ _ _ _ _ (exists_dir _ _ Hdir)). cbn [negb].
  rewrite (bind_raise _ _ _ _ _ (load_yaml_missing _ _ Htoc)). reflexivity.
Qed.

Lemma generate_audio_without_toc_witness :
  generate_audio (yaml := netstring_yaml) (ext := scripted_engine)
    ["books"; "a-book"] [1%Z] "af_heart" "kokoro" true structure_world
  = (structure_world, Raise (Error "FileNotFoundError")).
Proof.
  apply (generate_audio_without_toc (yaml := netstring_yaml) (ext := scripted_engine)
           ["books"; "a-book"] [1%Z] "af_heart" "kokoro" true structure_world);
    vm_compute; reflexivity.
Defined.

(** X19. Chapter numbers are validated before anything is generated:
    when a requested number is not in the table of contents,
    [generate_audio] prints the unknown numbers, in the order requested,
    and exits with status 1; no directory is created, no file written,
    and the engine is not reached. *)
Theorem generate_audio_rejects_unknown_chapters `{yaml : Yaml} `{ext : Externals}
    (book_path : path) (chapters : list Z) (voice model : string) (combine : bool)
    (w : World) (s : string) (toc : pyval) (entries : list Summary) (n : Z) :
  is_dir w book_path = true ->
  fs w !! joinpath book_path "toc.yml" = Some (Text s) ->
  safe_load s = Ok toc ->
  toc_chapters toc w = (w, Ok entries) ->
  n ∈ chapters -> n ∉ map s_number entries ->
  generate_audio book_path chapters voice model combine w
  = (mkWorld (fs w)
       (console w ++ [InvalidChapters
                        (filter (fun ch => ch ∉ map s_number entries) chapters)])
       (clock w),
     Raise (Exit 1)).
Proof.
  intros Hdir Hfile Hload Hentries Hin Hout.
  rewrite (generate_audio_validation _ _ _ _ _ _ _ _ _ Hdir Hfile Hload Hentries).
  assert (Hbad : n ∈ filter (fun ch => ch ∉ map s_number entries) chapters)
    by (apply list_elem_of_filter; auto).
  destruct (filter _ chapters); [apply elem_of_nil in Hbad; destruct Hbad|].
  reflexivity.
Qed.

Lemma generate_audio_rejects_unknown_chapters_witness :
  generate_audio (yaml := netstring_yaml) (ext := scripted_engine)
    ["books"; "a-book"] [7; 1; 9]%Z "af_heart" "kokoro" true converted_world
  = (mkWorld (fs converted_world)
       (console converted_world ++ [InvalidChapters [7; 9]%Z])
       (clock converted_world),
     Raise (Exit 1)).
Proof.
  rewrite (generate_audio_rejects_unknown_chapters (yaml := netstring_yaml)
             (ext := scripted_engine) ["books"; "a-book"] [7; 1; 9]%Z "af_heart"
             "kokoro" true converted_world
             (dump (Yaml := netstring_yaml)
                (PDict {[ "chapters" := PList (map toc_entry sample_chapters) ]}))
             (PDict {[ "chapters" := PList (map toc_entry sample_chapters) ]})
             (map summary sample_chapters) 7%Z).
  - vm_compute. reflexivity.
  - vm_compute. reflexivity.
  - vm_compute. reflexivity.
  - vm_compute. reflexivity.
  - apply toc_chapters_toc.
  - apply list_elem_of_here.
  - intros H. apply list_elem_of_In in H. vm_compute in H. intuition discriminate.
Defined.

(** X20. The audio directory of the model is created without its
    parents: for known chapters and a model whose directory
    [audio/{model}] does not exist in the book, [generate_audio] raises
    [FileNotFoundError] before it prints or generates anything. *)
Theorem generate_audio_missing_model_directory `{yaml : Yaml} `{ext : Externals}
    (book_path : path) (chapters : list Z) (voice model : string) (combine : bool)
    (w : World) (s : string) (toc : pyval) (entries : list Summary) :
  is_dir w book_path = true ->
  fs w !! joinpath book_path "toc.yml" = Some (Text s) ->
  safe_load s = Ok toc ->
  toc_chapters toc w = (w, Ok entries) ->
  Forall (fun n => n ∈ map s_number entries) chapters ->
  fs w !! joinpath (joinpath book_path "audio") model = None ->
  fs w !! joinpath (joinpath (joinpath book_path "audio") model) "chapters" = None ->
  generate_audio book_path chapters voice model combine w
  = (w, Raise (Error "FileNotFoundError")).
Proof.
  intros Hdir Hfile Hload Hentries Hall Hmodel Hout.
  rewrite (generate_audio_validation _ _ _ _ _ _ _ _ _ Hdir Hfile Hload Hentries).
  replace (filter (fun ch => ch ∉ map s_number entries) chapters) with (@nil Z).
  - apply bind_raise, init_missing_parent.
    + exact Hout.
    + apply joinpath_nonempty.
    + rewrite path_parent_joinpath. exact Hmodel.
    + rewrite path_parent_joinpath. apply joinpath_nonempty.
  - symmetry. induction Hall as [|n chapters' Hn _ IH]; [reflexivity|].
    rewrite filter_cons_False by (intros Hnot; exact (Hnot Hn)). exact IH.
Qed.

Lemma generate_audio_missing_model_directory_witness :
  generate_audio (yaml := netstring_yaml) (ext := scripted_engine)
    ["books"; "a-book"] [1%Z] "af_heart" "other" true converted_world
  = (converted_world, Raise (Error "FileNotFoundError")).
Proof.
  apply (generate_audio_missing_model_directory (yaml := netstring_yaml)
           (ext := scripted_engine) ["books"; "a-book"] [1%Z] "af_heart" "other" true
           converted_world
           (dump (Yaml := netstring_yaml)
              (PDict {[ "chapters" := PList (map toc_entry sample_chapters) ]}))
           (PDict {[ "chapters" := PList (map toc_entry sample_chapters) ]})
           (map summary sample_chapters)).
  - vm_compute. reflexivity.
  - vm_compute. reflexivity.
  - vm_compute. reflexivity.
  - apply toc_chapters_toc.
  - constructor; [|constructor]. apply list_elem_of_In. vm_compute. auto.
  - vm_compute. reflexivity.
  - vm_compute. reflexivity.
Defined.

(* ===================================================================== *)
(** ** Further properties of the manager and of the voice comparison *)
(* ===================================================================== *)

Section ManagerFacts.
Context {ext : Externals}.
Local Open Scope py_scope.



End ManagerFacts.



(** X22. The output directory is created without its parents: where the
    parent of a missing output directory does not exist, constructing the
    manager raises [FileNotFoundError], and neither prints nor reaches
    the engine. *)
Theorem TTSManager_init_missing_parent `{ext : Externals} (lang_code : string)
    (output_dir : path) (w : World) :
  fs w !! output_dir = None ->
  output_dir <> [] ->
  fs w !! path_parent output_dir = None ->
  path_parent output_dir <> [] ->
  TTSManager_init lang_code output_dir w = (w, Raise (Error "FileNotFoundError")).
Proof. apply init_missing_parent. Qed.

Lemma TTSManager_init_missing_parent_witness :
  TTSManager_init (ext := scripted_engine) "a"
    ["books"; "b"; "audio"; "other"; "chapters"] book_world
  = (book_world, Raise (Error "FileNotFoundError")).
Proof.
  apply (TTSManager_init_missing_parent (ext := scripted_engine)).
  - vm_compute. reflexivity.
  - discriminate.
  - vm_compute. reflexivity.
  - discriminate.
Defined.

Section CompareMore.
Context {ext : Externals}.
Local Open Scope py_scope.




End CompareMore.






(* ===================================================================== *)
(** ** Properties of the directory structure *)
(* ===================================================================== *)

Section LayoutFacts.
Local Open Scope py_scope.

Lemma only_adds_refl w : only_adds_directories w w.
Proof. unfold only_adds_directories. auto. Qed.

Lemma only_adds_trans w1 w2 w3 :
  only_adds_directories w1 w2 -> only_adds_directories w2 w3 ->
  only_adds_directories w1 w3.
Proof.
  intros (Hc1 & Hk1 & Hkeep1 & Hnew1) (Hc2 & Hk2 & Hkeep2 & Hnew2).
  split; [congruence|]. split; [congruence|]. split.
  - intros p f Hp. auto.
  - intros p f Hp. destruct (Hnew2 p f Hp) as [Hp2|Hd]; auto.
Qed.

Lemma only_adds_put_dir (q : path) w :
  fs w !! q = None ->
  only_adds_directories w (mkWorld (<[q := Dir]> (fs w)) (console w) (clock w)).
Proof.
  intros Hq. split; [reflexivity|]. split; [reflexivity|]. cbn [fs]. split.
  - intros p f Hp. rewrite lookup_insert_ne by congruence. exact Hp.
  - intros p f. destruct (decide (q = p)) as [->|Hne].
    + rewrite lookup_insert_eq. intros [= <-]. auto.
    + rewrite lookup_insert_ne by exact Hne. auto.
Qed.

Lemma way_clear_grows w w' (p : path) :
  only_adds_directories w w' -> way_clear w p -> way_clear w' p.
Proof.
  intros (_ & _ & _ & Hnew) Hclear q f Hq Hf.
  destruct (Hnew q f Hf) as [Hold|Hd]; [exact (Hclear q f Hq Hold)|exact Hd].
Qed.

(** One step of [mkdir_from] that does not raise. *)
Lemma mkdir_from_step done name todo w :
  (exists f, fs w !! joinpath done name = Some f /\ f <> Dir
             /\ exists e, mkdir_from done (name :: todo) w = (w, Raise e))
  \/ (exists w1,
        fs w1 !! joinpath done name = Some Dir
        /\ only_adds_directories w w1
        /\ (fs w !! joinpath done name = Some Dir -> w1 = w)
        /\ (forall q : path, q <> joinpath done name -> fs w1 !! q = fs w !! q)
        /\ mkdir_from done (name :: todo) w = mkdir_from (joinpath done name) todo w1).
Proof.
  cbn [mkdir_from]. destruct (fs w !! joinpath done name) as [[|s|d r]|] eqn:Hq.
  - right. exists w. split; [exact Hq|]. split; [apply only_adds_refl|]. auto.
  - left. exists (Text s). split; [reflexivity|]. split; [discriminate|]. eauto.
  - left. exists (Wav d r). split; [reflexivity|]. split; [discriminate|]. eauto.
  - right. exists (mkWorld (<[joinpath done name := Dir]> (fs w)) (console w) (clock w)).
    cbn [fs]. split; [apply lookup_insert_eq|].
    split; [apply only_adds_put_dir, Hq|]. split; [discriminate|].
    split; [|reflexivity].
    intros q Hne. apply lookup_insert_ne. congruence.
Qed.

Lemma mkdir_from_adds done todo w :
  only_adds_directories w (fst (mkdir_from done todo w)).
Proof.
  revert done w. induction todo as [|name todo IH]; intros done w.
  - apply only_adds_refl.
  - destruct (mkdir_from_step done name todo w)
      as [(f & _ & _ & e & ->)|(w1 & _ & Hadds & _ & _ & ->)].
    + apply only_adds_refl.
    + eapply only_adds_trans; [exact Hadds|apply IH].
Qed.

Lemma prefix_cons_cases (t : list string) name todo :
  t `prefix_of` name :: todo -> t <> [] ->
  exists t', t = name :: t' /\ t' `prefix_of` todo.
Proof.
  intros Ht Hne. destruct t as [|name' t]; [congruence|].
  apply prefix_cons_inv_1 in Ht as Hname. apply prefix_cons_inv_2 in Ht.
  subst name'. eauto.
Qed.

Lemma joinpath_app (done : path) name (t : list string) :
  done ++ name :: t = joinpath done name ++ t.
Proof. unfold joinpath. rewrite <- app_assoc. reflexivity. Qed.

Lemma joinpath_app_neq (done : path) name (t : list string) :
  t <> [] -> joinpath done name ++ t <> joinpath done name.
Proof.
  intros Hne Heq. apply (f_equal (@length _)) in Heq. rewrite length_app in Heq.
  destruct t; [congruence|]. simpl in Heq. lia.
Qed.

(** A [mkdir_from] that returns leaves directories all the way. *)
Lemma mkdir_from_ok done todo w w' :
  mkdir_from done todo w = (w', Ok tt) ->
  forall t, t `prefix_of` todo -> t <> [] -> fs w' !! (done ++ t : path) = Some Dir.
Proof.
  revert done w. induction todo as [|name todo IH]; intros done w Hrun t Ht Hne.
  - apply prefix_nil_inv in Ht. congruence.
  - destruct (prefix_cons_cases t name todo Ht Hne) as (t' & -> & Ht').
    destruct (mkdir_from_step done name todo w)
      as [(f & _ & _ & e & Hraise)|(w1 & Hq & _ & _ & _ & Hstep)].
    { rewrite Hraise in Hrun. discriminate Hrun. }
    rewrite Hstep in Hrun. destruct t' as [|name2 t'].
    + destruct (mkdir_from_adds (joinpath done name) todo w1) as (_ & _ & Hkeep & _).
      rewrite Hrun in Hkeep. apply Hkeep. exact Hq.
    + rewrite joinpath_app. apply (IH _ _ Hrun); [exact Ht'|discriminate].
Qed.

(** [mkdir_from] returns when no regular file is in the way. *)
Lemma mkdir_from_succeeds done todo w :
  (forall t f, t `prefix_of` todo -> t <> [] ->
               fs w !! (done ++ t : path) = Some f -> f = Dir) ->
  exists w', mkdir_from done todo w = (w', Ok tt).
Proof.
  revert done w. induction todo as [|name todo IH]; intros done w Hclear.
  - exists w. reflexivity.
  - destruct (mkdir_from_step done name todo w)
      as [(f & Hf & Hnd & _)|(w1 & _ & _ & _ & Hother & ->)].
    + exfalso. apply Hnd. apply (Hclear [name] f); [|discriminate|exact Hf].
      apply prefix_cons, prefix_nil.
    + apply IH. intros t f Ht Hne. rewrite Hother by (apply joinpath_app_neq, Hne).
      rewrite <- joinpath_app. apply Hclear; [apply prefix_cons, Ht|discriminate].
Qed.

(** [mkdir_from] changes nothing where the directories exist. *)
Lemma mkdir_from_noop done todo w :
  (forall t, t `prefix_of` todo -> t <> [] -> fs w !! (done ++ t : path) = Some Dir) ->
  mkdir_from done todo w = (w, Ok tt).
Proof.
  revert done. induction todo as [|name todo IH]; intros done Hdirs; [reflexivity|].
  destruct (mkdir_from_step done name todo w)
    as [(f & Hf & Hnd & _)|(w1 & _ & _ & Hsame & _ & ->)].
  - exfalso. apply Hnd.
    assert (Hd : fs w !! (done ++ [name] : path) = Some Dir)
      by (apply Hdirs; [apply prefix_cons, prefix_nil|discriminate]).
    unfold joinpath in Hf. rewrite Hd in Hf. injection Hf as <-. reflexivity.
  - rewrite Hsame.
    + apply IH. intros t Ht Hne. rewrite <- joinpath_app.
      apply Hdirs; [apply prefix_cons, Ht|discriminate].
    + apply (Hdirs [name]); [apply prefix_cons, prefix_nil|discriminate].
Qed.

(** The loop of [create_book_structure]. *)
Lemma mkdir_loop_adds (paths : list path) w :
  only_adds_directories w
    (fst (for_each paths (fun _ path => mkdir_parents_exist_ok path) tt w)).
Proof.
  revert w. induction paths as [|p paths IH]; intros w; cbn [for_each].
  - apply only_adds_refl.
  - unfold Effects.bind, mkdir_parents_exist_ok at 1.
    pose proof (mkdir_from_adds [] p w) as Hp.
    destruct (mkdir_from [] p w) as [w1 [[]|e]]; cbn [fst] in *; [|exact Hp].
    eapply only_adds_trans; [exact Hp|apply IH].
Qed.

Lemma mkdir_loop_ok (paths : list path) w w' :
  for_each paths (fun _ path => mkdir_parents_exist_ok path) tt w = (w', Ok tt) ->
  forall p q : path, p ∈ paths -> q `prefix_of` p -> q <> [] -> fs w' !! q = Some Dir.
Proof.
  revert w. induction paths as [|p0 paths IH]; intros w Hrun p q Hin Hq Hne.
  - apply elem_of_nil in Hin. destruct Hin.
  - cbn [for_each] in Hrun. unfold Effects.bind, mkdir_parents_exist_ok at 1 in Hrun.
    destruct (mkdir_from [] p0 w) as [w1 [[]|e]] eqn:Hp0; [|discriminate Hrun].
    apply elem_of_cons in Hin as [->|Hin].
    + destruct (mkdir_loop_adds paths w1) as (_ & _ & Hkeep & _).
      rewrite Hrun in Hkeep. apply Hkeep.
      exact (mkdir_from_ok [] p0 w w1 Hp0 q Hq Hne).
    + exact (IH w1 Hrun p q Hin Hq Hne).
Qed.

Lemma mkdir_loop_succeeds (paths : list path) w :
  (forall p, p ∈ paths -> way_clear w p) ->
  exists w', for_each paths (fun _ path => mkdir_parents_exist_ok path) tt w
             = (w', Ok tt).
Proof.
  revert w. induction paths as [|p0 paths IH]; intros w Hclear.
  - exists w. reflexivity.
  - cbn [for_each]. unfold Effects.bind, mkdir_parents_exist_ok at 1.
    destruct (mkdir_from_succeeds [] p0 w) as [w1 Hp0].
    { intros t f Ht _ Hf. exact (Hclear p0 (list_elem_of_here _ _) t f Ht Hf). }
    rewrite Hp0. apply IH. intros p Hin.
    apply (way_clear_grows w); [|apply Hclear, list_elem_of_further, Hin].
    pose proof (mkdir_from_adds [] p0 w) as Hadds. rewrite Hp0 in Hadds. exact Hadds.
Qed.

Lemma mkdir_loop_noop (paths : list path) w :
  (forall p q : path, p ∈ paths -> q `prefix_of` p -> q <> [] ->
                      fs w !! q = Some Dir) ->
  for_each paths (fun _ path => mkdir_parents_exist_ok path) tt w = (w, Ok tt).
Proof.
  induction paths as [|p0 paths IH]; intros Hdirs; [reflexivity|].
  cbn [for_each]. unfold Effects.bind, mkdir_parents_exist_ok at 1.
  rewrite mkdir_from_noop.
  - apply IH. intros p q Hin. apply Hdirs, list_elem_of_further, Hin.
  - intros t Ht Hne. apply (Hdirs p0 t); [apply list_elem_of_here|exact Ht|exact Hne].
Qed.

Lemma structure_path_nonempty self book_slug key (p : path) :
  (key, p) ∈ book_structure self book_slug -> p <> [].
Proof.
  unfold book_structure. intros Hin.
  repeat (apply elem_of_cons in Hin as [[= _ ->]|Hin]; [apply joinpath_nonempty|]).
  apply elem_of_nil in Hin. destruct Hin.
Qed.

End LayoutFacts.

(** X26. Whatever is on the disk and whether or not it raises,
    [create_book_structure] prints nothing, removes and overwrites
    nothing, and adds only directories. *)
Theorem create_book_structure_only_adds_directories (self : BookProcessor)
    (book_slug : string) (w : World) :
  let w' := fst (create_book_structure self book_slug w) in
  console w' = console w /\ clock w' = clock w
  /\ (forall (p : path) f, fs w !! p = Some f -> fs w' !! p = Some f)
  /\ (forall (p : path) f, fs w' !! p = Some f -> fs w !! p = Some f \/ f = Dir).
Proof.
  unfold create_book_structure, Effects.bind.
  pose proof (mkdir_loop_adds (map snd (book_structure self book_slug)) w) as Hadds.
  destruct (for_each _ _ tt w) as [w1 [[]|e]]; exact Hadds.
Qed.

(** X27. Where no regular file stands at one of the ten directories of
    the structure or at one of their ancestors, [create_book_structure]
    returns the structure and every path in it is a directory
    afterwards. *)
Theorem create_book_structure_creates (self : BookProcessor) (book_slug : string)
    (w : World) :
  (forall key p, (key, p) ∈ book_structure self book_slug -> way_clear w p) ->
  exists w',
    create_book_structure self book_slug w = (w', Ok (book_structure self book_slug))
    /\ forall key p, (key, p) ∈ book_structure self book_slug ->
                     fs w' !! p = Some Dir.
Proof.
  intros Hclear.
  destruct (mkdir_loop_succeeds (map snd (book_structure self book_slug)) w)
    as [w' Hrun].
  { intros p (kv & -> & Hin)%list_elem_of_fmap. destruct kv as [key p].
    exact (Hclear key p Hin). }
  exists w'. unfold create_book_structure. rewrite (bind_ok _ _ _ _ _ Hrun).
  split; [reflexivity|]. intros key p Hin.
  apply (mkdir_loop_ok _ _ _ Hrun p p).
  - apply list_elem_of_fmap. exists (key, p). auto.
  - reflexivity.
  - exact (structure_path_nonempty _ _ _ _ Hin).
Qed.

Lemma create_book_structure_creates_witness :
  exists w',
    create_book_structure (mkBookProcessor ["books"]) "a-book" empty_world
    = (w', Ok (book_structure (mkBookProcessor ["books"]) "a-book"))
    /\ fs w' !! ["books"; "a-book"; "audio"; "kokoro"; "chapters"] = Some Dir.
Proof.
  destruct (create_book_structure_creates (mkBookProcessor ["books"]) "a-book"
              empty_world) as (w' & Hrun & Hdirs).
  - intros key p _ q f _ Hf. cbn in Hf. rewrite lookup_empty in Hf. discriminate Hf.
  - exists w'. split; [exact Hrun|]. apply (Hdirs "kokoro").
    apply list_elem_of_In. vm_compute. tauto.
Defined.

(** X28. [create_book_structure] is idempotent: run again after it has
    returned, it returns the same structure and changes nothing. *)
Theorem create_book_structure_idempotent (self : BookProcessor) (book_slug : string)
    (w w1 : World) (structure : list (string * path)) :
  create_book_structure self book_slug w = (w1, Ok structure) ->
  create_book_structure self book_slug w1 = (w1, Ok structure).
Proof.
  unfold create_book_structure, Effects.bind.
  destruct (for_each _ _ tt w) as [w' [[]|e]] eqn:Hrun; [|discriminate].
  unfold ret. intros [= -> <-].
  rewrite mkdir_loop_noop; [reflexivity|].
  intros p q. exact (mkdir_loop_ok _ _ _ Hrun p q).
Qed.

Lemma create_book_structure_idempotent_witness :
  let w1 := fst (create_book_structure (mkBookProcessor ["books"]) "a-book"
                   empty_world) in
  create_book_structure (mkBookProcessor ["books"]) "a-book" w1
  = (w1, Ok (book_structure (mkBookProcessor ["books"]) "a-book")).
Proof.
  apply (create_book_structure_idempotent (mkBookProcessor ["books"]) "a-book"
           empty_world).
  vm_compute. reflexivity.
Defined.

(* ===================================================================== *)
(** ** From a converted book to its audio *)
(* ===================================================================== *)

Section PipelineFacts.
Context {yaml : Yaml} {ext : Externals}.
Local Open Scope py_scope.








End PipelineFacts.




(* ===================================================================== *)
(** ** The listing of a converted book *)
(* ===================================================================== *)

Section ListingFacts.
Context {yaml : Yaml}.
Local Open Scope py_scope.


End ListingFacts.


